(** * SkillWeave: the NCO-2015 occupation extractor ([scripts/nco_extractor.py])

    A shallow embedding of the record extractor: the [Occupation] record and
    its validity check, the line predicates of [NCOExtractor], the per-column
    record assembler, de-duplication and the text-cleaning pass, followed by
    the properties established for them.

    Python strings are modelled as lists of characters.  A character is a
    code point in the range U+0000..U+00FF, carried by [ascii]; the
    classification tables below ([isspace], [isdigit], [isdecimal], case
    mapping, word characters) are the ones CPython uses on that range.  *)

From stdpp Require Import base list gmap sets strings.
From Stdlib Require Import Ascii ZArith Lia.
From Stdlib Require String.

Local Open Scope nat_scope.

(** ** Characters *)

Module Char.

Definition code (c : ascii) : nat := nat_of_ascii c.

Definition in_range (lo hi : nat) (c : ascii) : bool :=
  Nat.leb lo (code c) && Nat.leb (code c) hi.

Definition at_code (n : nat) (c : ascii) : bool := Nat.eqb (code c) n.

(** [str.isspace], also the class [\s] of [re] on [str] patterns. *)
Definition isspace (c : ascii) : bool :=
  in_range 9 13 c || in_range 28 32 c || at_code 133 c || at_code 160 c.

(** [str.isdecimal], also the class [\d] of [re] and the digits [int]
    accepts. *)
Definition isdecimal (c : ascii) : bool := in_range 48 57 c.

(** [str.isdigit]: the decimal digits and the superscripts U+00B2, U+00B3
    and U+00B9. *)
Definition isdigit (c : ascii) : bool :=
  isdecimal c || at_code 178 c || at_code 179 c || at_code 185 c.

Definition isupper (c : ascii) : bool :=
  in_range 65 90 c || in_range 192 214 c || in_range 216 222 c.

Definition islower (c : ascii) : bool :=
  in_range 97 122 c || at_code 170 c || at_code 181 c || at_code 186 c
  || in_range 223 246 c || in_range 248 255 c.

(** [str.lower] on one character. *)
Definition lower (c : ascii) : ascii :=
  if isupper c then ascii_of_nat (code c + 32) else c.

(** The class [\w] of [re]: alphanumeric characters and the underscore. *)
Definition isword (c : ascii) : bool :=
  isupper c || islower c || isdigit c || in_range 188 190 c || at_code 95 c.

(** The characters [re] removes with the class
    [[\x00-\x08\x0b-\x0c\x0e-\x1f]]. *)
Definition iscontrol (c : ascii) : bool :=
  in_range 0 8 c || in_range 11 12 c || in_range 14 31 c.

End Char.

(** ** Strings *)

Definition str := list ascii.

(** A string literal. *)
Definition lit (s : string) : str := String.list_ascii_of_string s.

Module Str.

Fixpoint eqb (a b : str) : bool :=
  match a, b with
  | [], [] => true
  | x :: a', y :: b' => Ascii.eqb x y && eqb a' b'
  | _, _ => false
  end.

(** Truth value of a string: non-empty. *)
Definition truthy (s : str) : bool :=
  match s with [] => false | _ :: _ => true end.

Fixpoint lstrip (drop : ascii -> bool) (s : str) : str :=
  match s with
  | [] => []
  | c :: s' => if drop c then lstrip drop s' else s
  end.

Definition rstrip (drop : ascii -> bool) (s : str) : str :=
  rev (lstrip drop (rev s)).

(** [s.strip(chars)] for the set of characters [drop]. *)
Definition strip_chars (drop : ascii -> bool) (s : str) : str :=
  rstrip drop (lstrip drop s).

(** [s.strip()]. *)
Definition strip (s : str) : str := strip_chars Char.isspace s.

(** [s.lower()]. *)
Definition lower (s : str) : str := map Char.lower s.

(** [s.isdigit()]: non-empty and every character is a digit. *)
Definition isdigit (s : str) : bool := truthy s && forallb Char.isdigit s.

(** [s.isupper()]: no lower-case character and at least one upper-case
    one. *)
Definition isupper (s : str) : bool :=
  negb (existsb Char.islower s) && existsb Char.isupper s.

(** [s.split()]: the maximal runs of non-whitespace characters; [w] is the
    run being read. *)
Fixpoint split_from (w : str) (s : str) : list str :=
  match s with
  | [] => match w with [] => [] | _ => [w] end
  | c :: s' =>
      if Char.isspace c
      then match w with [] => split_from [] s' | _ => w :: split_from [] s' end
      else split_from (w ++ [c]) s'
  end.

Definition split (s : str) : list str := split_from [] s.

(** [sep.join(l)]. *)
Fixpoint join (sep : str) (l : list str) : str :=
  match l with
  | [] => []
  | [x] => x
  | x :: l' => x ++ sep ++ join sep l'
  end.

Fixpoint startswith (p s : str) : bool :=
  match p, s with
  | [], _ => true
  | a :: p', b :: s' => Ascii.eqb a b && startswith p' s'
  | _ :: _, [] => false
  end.

(** [sub in s]. *)
Fixpoint contains (sub s : str) : bool :=
  startswith sub s ||
  match s with
  | [] => false
  | _ :: s' => contains sub s'
  end.

(** [s in l] for a collection of strings. *)
Definition mem (s : str) (l : list str) : bool := existsb (eqb s) l.

End Str.

(** ** Regular expressions

    The patterns of the extractor are sequences of single characters,
    character classes under [?], [*] and [*?], alternations of literals, and
    the assertions [\b], [^] and [$].  [match_here] is the backtracking
    matcher of [re] on that fragment: alternatives are tried in the order
    [re] tries them, and the first success is the match. *)

Module Re.

Inductive atom :=
| One (cls : ascii -> bool)        (* one character of the class *)
| Opt (cls : ascii -> bool)        (* [c?], greedy *)
| Star (cls : ascii -> bool)       (* [c*], greedy *)
| LazyStar (cls : ascii -> bool)   (* [c*?] *)
| Alt (alts : list str)            (* [(lit1|lit2|...)] *)
| WordB                            (* [\b] *)
| Bos                              (* [^] *)
| Eos.                             (* [$] *)

Definition pattern := list atom.

Definition chr (c : ascii) : atom := One (Ascii.eqb c).
(** A literal character under [re.IGNORECASE]. *)
Definition ichr (c : ascii) : atom :=
  One (fun x => Ascii.eqb (Char.lower x) (Char.lower c)).
Definition text (s : string) : pattern := map chr (lit s).
Definition itext (s : string) : pattern := map ichr (lit s).
(** [.]: any character but a newline. *)
Definition dot (c : ascii) : bool := negb (Char.at_code 10 c).
Definition set (cs : string) (c : ascii) : bool :=
  existsb (Ascii.eqb c) (lit cs).
Definition union (p q : ascii -> bool) (c : ascii) : bool := p c || q c.

Definition isword_opt (o : option ascii) : bool :=
  match o with Some c => Char.isword c | None => false end.

Definition last_or (prev : option ascii) (s : str) : option ascii :=
  match last s with Some c => Some c | None => prev end.

(** [match_here p prev s]: the length of the match of [p] at the start of
    [s], where [prev] is the character before it ([None] at the start of
    the subject). *)
Fixpoint match_here (p : pattern) (prev : option ascii) (s : str)
    {struct p} : option nat :=
  match p with
  | [] => Some 0
  | One cls :: p' =>
      match s with
      | c :: s' => if cls c then S <$> match_here p' (Some c) s' else None
      | [] => None
      end
  | Opt cls :: p' =>
      match s with
      | c :: s' =>
          if cls c then
            match match_here p' (Some c) s' with
            | Some n => Some (S n)
            | None => match_here p' prev s
            end
          else match_here p' prev s
      | [] => match_here p' prev s
      end
  | Star cls :: p' =>
      (fix star (prev : option ascii) (s : str) {struct s} : option nat :=
         match s with
         | c :: s' =>
             if cls c then
               match star (Some c) s' with
               | Some n => Some (S n)
               | None => match_here p' prev s
               end
             else match_here p' prev s
         | [] => match_here p' prev s
         end) prev s
  | LazyStar cls :: p' =>
      (fix lazy (prev : option ascii) (s : str) {struct s} : option nat :=
         match match_here p' prev s with
         | Some n => Some n
         | None =>
             match s with
             | c :: s' => if cls c then S <$> lazy (Some c) s' else None
             | [] => None
             end
         end) prev s
  | Alt alts :: p' =>
      (fix alt (alts : list str) : option nat :=
         match alts with
         | [] => None
         | l :: alts' =>
             let here :=
               if Str.startswith l s
               then (fun n => length l + n) <$>
                    match_here p' (last_or prev l) (drop (length l) s)
               else None in
             match here with Some n => Some n | None => alt alts' end
         end) alts
  | WordB :: p' =>
      if xorb (isword_opt prev) (isword_opt (head s))
      then match_here p' prev s else None
  | Bos :: p' =>
      match prev with None => match_here p' prev s | Some _ => None end
  | Eos :: p' =>
      match s with
      | [] => match_here p' prev s
      | [c] => if Char.at_code 10 c then match_here p' prev s else None
      | _ => None
      end
  end.

(** [re.match(p, s)] as a truth value. *)
Definition matches (p : pattern) (s : str) : bool :=
  bool_decide (is_Some (match_here p None s)).

Fixpoint search_from (p : pattern) (prev : option ascii) (s : str) : bool :=
  match match_here p prev s with
  | Some _ => true
  | None =>
      match s with
      | [] => false
      | c :: s' => search_from p (Some c) s'
      end
  end.

(** [re.search(p, s)] as a truth value. *)
Definition search (p : pattern) (s : str) : bool := search_from p None s.

(** [sub_from p repl prev s skip]: the subject is scanned from left to
    right; [skip] counts the characters of the current match still to be
    dropped.  None of the patterns the extractor substitutes matches the
    empty string (see [sub_patterns_nonempty]); an empty match inserts
    [repl] and copies the character. *)
Fixpoint sub_from (p : pattern) (repl : str) (prev : option ascii)
    (s : str) (skip : nat) : str :=
  match s with
  | [] =>
      match skip, match_here p prev [] with
      | 0, Some _ => repl
      | _, _ => []
      end
  | c :: s' =>
      match skip with
      | S k => sub_from p repl (Some c) s' k
      | 0 =>
          match match_here p prev s with
          | Some (S n) => repl ++ sub_from p repl (Some c) s' n
          | Some 0 => repl ++ c :: sub_from p repl (Some c) s' 0
          | None => c :: sub_from p repl (Some c) s' 0
          end
      end
  end.

(** [re.sub(p, repl, s)]. *)
Definition sub (p : pattern) (repl : str) (s : str) : str :=
  sub_from p repl None s 0.

End Re.

(** ** Exceptions

    The only operations of the extractor that can raise are [int] on a
    character that is not a decimal digit and indexing an empty string. *)

Inductive exn := ValueError | IndexError.

Inductive result (A : Type) :=
| Ok (a : A)
| Raise (e : exn).
Arguments Ok {A} a.
Arguments Raise {A} e.

#[global] Instance result_ret : MRet result := fun A a => Ok a.
#[global] Instance result_bind : MBind result := fun A B f m =>
  match m with
  | Ok a => f a
  | Raise e => Raise e
  end.

(** [int(c)] for a string of the single character [c]. *)
Definition int_of_char (c : ascii) : result Z :=
  if Char.isdecimal c then Ok (Z.of_nat (Char.code c) - 48)%Z
  else Raise ValueError.

(** [s[0]]. *)
Definition index0 (s : str) : result ascii :=
  match s with
  | c :: _ => Ok c
  | [] => Raise IndexError
  end.

(** [a and b], where [b] is evaluated, and may raise, only when [a] is
    true. *)
Definition and_then (a : bool) (b : result bool) : result bool :=
  if a then b else Ok false.

(** ** The [Occupation] record *)

Record Occupation := mkOccupation {
  nco_code : str;
  title : str;
  description : str
}.

(** [bool(s and s.strip())]. *)
Definition populated (s : str) : bool :=
  Str.truthy s && Str.truthy (Str.strip s).

(** [Occupation.is_valid]: the conjuncts in the order of the source. *)
Definition is_valid (self : Occupation) : result bool :=
  and_then (populated (nco_code self)) (
  and_then (populated (title self)) (
  and_then (populated (description self)) (
  and_then (length (nco_code self) =? 4) (
  and_then (Str.isdigit (nco_code self)) (
    c ← index0 (nco_code self);
    d ← int_of_char c;
    Ok ((1 <=? d)%Z
        && (3 <? length (title self))
        && (20 <? length (description self)))))))).

(** ** The extractor *)

Module NCOExtractor.

Definition HEADER_KEYWORDS : list str := map lit
  [ "division"; "sub-division"; "subdivision"; "family"; "sub-family";
    "volume"; "part"; "section"; "chapter"; "index"; "contents";
    "classification"; "national"; "occupations"; "annexure"; "group";
    "preface"; "foreword"; "introduction" ].

Definition METADATA_KEYWORDS : list str := map lit
  [ "qualification pack"; "qp-nos"; "qp nos"; "nsqf"; "nos code";
    "performance criteria"; "knowledge and understanding";
    "sector"; "occupation map"; "nveqf"; "also known as" ].

Definition digits (n : nat) : Re.pattern := repeat (Re.One Char.isdecimal) n.
Definition spaces : Re.pattern := [Re.One Char.isspace; Re.Star Char.isspace].

(** [isco[-\s]*08], [unit group:?\s*\d{4}], [sub-group:?\s*\d{3}] *)
Definition ISCO_PATTERNS : list Re.pattern :=
  [ Re.text "isco" ++ [Re.Star (Re.union (Re.set "-") Char.isspace)]
      ++ Re.text "08";
    Re.text "unit group" ++ [Re.Opt (Re.set ":"); Re.Star Char.isspace]
      ++ digits 4;
    Re.text "sub-group" ++ [Re.Opt (Re.set ":"); Re.Star Char.isspace]
      ++ digits 3 ].

(** [^\d+$] *)
Definition page_number_re : Re.pattern :=
  [Re.Bos; Re.One Char.isdecimal; Re.Star Char.isdecimal; Re.Eos].

(** [\d{4}\.\d{4}] *)
Definition sub_code_re : Re.pattern := digits 4 ++ Re.text "." ++ digits 4.

(** [(agr|con|ite|css|ssc|ffs)/q\d+] *)
Definition qp_code_re : Re.pattern :=
  [Re.Alt (map lit ["agr"; "con"; "ite"; "css"; "ssc"; "ffs"])]
    ++ Re.text "/q" ++ [Re.One Char.isdecimal; Re.Star Char.isdecimal].

(** [\s*\(.*?ISCO.*?\)] with [re.IGNORECASE] *)
Definition isco_paren_re : Re.pattern :=
  [Re.Star Char.isspace; Re.chr "("; Re.LazyStar Re.dot]
    ++ Re.itext "ISCO" ++ [Re.LazyStar Re.dot; Re.chr ")"].

(** [\s*ISCO.*$] with [re.IGNORECASE] *)
Definition isco_tail_re : Re.pattern :=
  [Re.Star Char.isspace] ++ Re.itext "ISCO" ++ [Re.Star Re.dot; Re.Eos].

(** [\s+] *)
Definition whitespace_re : Re.pattern := spaces.

(** [[\x00-\x08\x0b-\x0c\x0e-\x1f]] *)
Definition control_re : Re.pattern := [Re.One Char.iscontrol].

(** [\bPage\s+\d+\b] with [re.IGNORECASE] *)
Definition page_re : Re.pattern :=
  [Re.WordB] ++ Re.itext "Page" ++ spaces
    ++ [Re.One Char.isdecimal; Re.Star Char.isdecimal; Re.WordB].

(** [\bCode\s+\d{4}\s+Title\b] with [re.IGNORECASE] *)
Definition code_title_re : Re.pattern :=
  [Re.WordB] ++ Re.itext "Code" ++ spaces ++ digits 4 ++ spaces
    ++ Re.itext "Title" ++ [Re.WordB].

Definition YEARS : list str :=
  map lit ["2015"; "2016"; "2017"; "2018"; "2019"; "2020"; "2021"].

Definition is_valid_nco_code (text : str) : bool :=
  if negb (Str.truthy text) || negb (Str.isdigit text) then false
  else if negb (length text =? 4) then false
  else if match text with c :: _ => Ascii.eqb c "0" | [] => false end
       then false
  else if Str.mem text YEARS then false
  else true.

Definition is_header_line (line : str) : bool :=
  let line_lower := Str.strip (Str.lower line) in
  if length line_lower <? 5 then false
  else if existsb (fun keyword => Str.contains keyword line_lower)
            HEADER_KEYWORDS then true
  else
    let words := Str.split line in
    if (length words <=? 6) && Str.isupper line then
      match words with
      | w :: _ => negb (is_valid_nco_code w)
      | [] => false
      end
    else false.

Definition is_metadata_section (line : str) : bool :=
  let line_lower := Str.strip (Str.lower line) in
  if existsb (fun keyword => Str.contains keyword line_lower)
       METADATA_KEYWORDS then true
  else if Re.search sub_code_re line then true
  else if Re.search qp_code_re line_lower then true
  else false.

Definition should_stop_description (line : str) : bool :=
  let line_lower := Str.strip (Str.lower line) in
  if existsb (fun pattern => Re.search pattern line_lower) ISCO_PATTERNS
  then true
  else if Str.contains (lit "qualification pack") line_lower
          || Str.contains (lit "qp-nos") line_lower then true
  else false.

(** *** The record assembler

    The loop of [extract_occupations_from_column] keeps four variables. *)
Record state := mkState {
  occupations : list Occupation;
  current_occ : option Occupation;
  description_lines : list str;
  in_metadata : bool
}.

Definition initial : state := mkState [] None [] false.

(** [line.split()[0] if line.split() else ""] *)
Definition first_word (line : str) : str :=
  match Str.split line with
  | w :: _ => w
  | [] => []
  end.

(** The candidate [occ] with [' '.join(lines).strip()] stored as its
    description. *)
Definition with_description (occ : Occupation) (lines : list str)
    : Occupation :=
  mkOccupation (nco_code occ) (title occ)
    (Str.strip (Str.join (lit " ") lines)).

(** The three statements at every finalization site:
    [current_occ.description = ' '.join(description_lines).strip()],
    then [if current_occ.is_valid(): occupations.append(current_occ)].
    The candidate is replaced or cleared right after each site, so the
    stored description is only ever read through [occupations]. *)
Definition finalize (occs : list Occupation) (occ : Occupation)
    (lines : list str) : result (list Occupation) :=
  let occ' := with_description occ lines in
  valid ← is_valid occ';
  mret (if valid : bool then occs ++ [occ'] else occs).

(** [if current_occ and description_lines: ...] around [finalize]; an
    [Occupation] object is always true. *)
Definition finalize_open (st : state) : result (list Occupation) :=
  match current_occ st, description_lines st with
  | Some occ, _ :: _ => finalize (occupations st) occ (description_lines st)
  | _, _ => mret (occupations st)
  end.

(** The title of an occupation line, cleaned. *)
Definition clean_title (line : str) : str :=
  let title_parts := tail (Str.split line) in
  let title := Str.strip (Str.join (lit " ") title_parts) in
  let title := Re.sub isco_paren_re [] title in
  let title := Re.sub isco_tail_re [] title in
  Str.strip_chars (Re.set ";,. ") title.

(** One iteration of the loop; a [continue] returns the state. *)
Definition step (st : state) (raw : str) : result state :=
  let line := Str.strip raw in
  if negb (Str.truthy line) || (length line <? 2) then mret st
  else if Re.matches page_number_re line && (length line <=? 3) then mret st
  else if is_metadata_section line then
    (* in_metadata = True; save the current occupation *)
    match current_occ st, description_lines st with
    | Some occ, _ :: _ =>
        occs ← finalize (occupations st) occ (description_lines st);
        mret (mkState occs None [] true)
    | _, _ =>
        mret (mkState (occupations st) (current_occ st)
                (description_lines st) true)
    end
  else if in_metadata st && negb (is_valid_nco_code (first_word line))
  then mret st
  else
    (* from here on in_metadata is False: it was, or has been cleared *)
    if is_header_line line then
      mret (mkState (occupations st) (current_occ st)
              (description_lines st) false)
    else if is_valid_nco_code (first_word line) then
      occs ← finalize_open st;
      let title := clean_title line in
      if negb (Str.truthy title) || (length title <? 3) then
        mret (mkState occs None [] false)
      else
        mret (mkState occs
                (Some (mkOccupation (first_word line) title [])) [] false)
    else
      match current_occ st with
      | Some occ =>
          if should_stop_description line then
            occs ← match description_lines st with
                   | _ :: _ =>
                       finalize (occupations st) occ (description_lines st)
                   | [] => mret (occupations st)
                   end;
            mret (mkState occs None [] true)
          else if negb (is_metadata_section line)
                  && negb (is_header_line line) then
            mret (mkState (occupations st) (current_occ st)
                    (description_lines st ++ [line]) false)
          else
            mret (mkState (occupations st) (current_occ st)
                    (description_lines st) false)
      | None =>
          mret (mkState (occupations st) (current_occ st)
                  (description_lines st) false)
      end.

(** The [for] loop. *)
Fixpoint run (st : state) (lines : list str) : result state :=
  match lines with
  | [] => mret st
  | line :: rest => st' ← step st line; run st' rest
  end.

Definition extract_occupations_from_column (lines : list str)
    : result (list Occupation) :=
  st ← run initial lines;
  finalize_open st.

(** [deduplicate]: [self.occupations] goes in, its new value comes out. *)
Fixpoint deduplicate_from (seen_codes : gset str)
    (unique_occupations : list Occupation) (occs : list Occupation)
    : list Occupation :=
  match occs with
  | [] => unique_occupations
  | occ :: rest =>
      if decide (nco_code occ ∉ seen_codes)
      then deduplicate_from ({[nco_code occ]} ∪ seen_codes)
             (unique_occupations ++ [occ]) rest
      else deduplicate_from seen_codes unique_occupations rest
  end.

Definition deduplicate (occs : list Occupation) : list Occupation :=
  deduplicate_from ∅ [] occs.

Definition clean_text (text : str) : str :=
  let text := Re.sub whitespace_re (lit " ") text in
  let text := Re.sub control_re [] text in
  let text := Re.sub page_re [] text in
  let text := Re.sub code_title_re [] text in
  Str.strip text.

(** *** Documents *)

Section Documents.

(** A page is what the PDF reader hands over.  [split_into_columns] reads
    the floating-point positions of its words and returns the lines of the
    left and of the right column; it is taken as given.  A document is the
    list of its pages, already opened; the progress messages the two
    methods print are left out. *)
Context {page : Type} (split_into_columns : page → list str * list str).

(** The loop of [extract_from_pdf]; [page_num] counts from 1. *)
Fixpoint extract_pages (page_num : nat) (all_occupations : list Occupation)
    (pages : list page) : result (list Occupation) :=
  match pages with
  | [] => mret all_occupations
  | pg :: rest =>
      if page_num <? 5 then extract_pages (S page_num) all_occupations rest
      else
        let '(left_lines, right_lines) := split_into_columns pg in
        left_occs ← extract_occupations_from_column left_lines;
        right_occs ← extract_occupations_from_column right_lines;
        extract_pages (S page_num)
          ((all_occupations ++ left_occs) ++ right_occs) rest
  end.

Definition extract_from_pdf (pdf : list page) : result (list Occupation) :=
  extract_pages 1 [] pdf.

(** The loop of [extract_all] over the opened documents. *)
Fixpoint extract_all_from (all_occupations : list Occupation)
    (pdfs : list (list page)) : result (list Occupation) :=
  match pdfs with
  | [] => mret all_occupations
  | pdf :: rest =>
      occupations ← extract_from_pdf pdf;
      extract_all_from (all_occupations ++ occupations) rest
  end.

Definition extract_all (pdfs : list (list page)) : result (list Occupation) :=
  extract_all_from [] pdfs.

End Documents.

End NCOExtractor.

Import NCOExtractor.

(** ** [main]

    The documents are given opened, as lists of pages: this is [main] once
    its test that the files exist has passed. *)

Section Main.

Context {page : Type} (split_into_columns : page → list str * list str).

(** [main]: the value of [extractor.occupations] after [extract_all] and
    [deduplicate], which is what is exported and checked. *)
Definition main_occupations (pdfs : list (list page))
    : result (list Occupation) :=
  occs ← extract_all split_into_columns pdfs;
  mret (deduplicate occs).

End Main.

(** The three tests of the validation checklist [main] prints. *)
Definition all_codes_4_digits (occs : list Occupation) : bool :=
  forallb (fun o => length (nco_code o) =? 4) occs.

Definition no_year_codes (occs : list Occupation) : bool :=
  negb (Str.mem (lit "2015") (nco_code <$> occs)).

Fixpoint all_start_with_1_9 (occs : list Occupation) : result bool :=
  match occs with
  | [] => mret true
  | o :: rest =>
      c ← index0 (nco_code o);
      if Ascii.eqb c "0" then mret false else all_start_with_1_9 rest
  end.

(** * Vocabulary of the specification *)

(** The data-model invariant of [Occupation]: a code of exactly four
    decimal digits whose leading one has a value from 1 to 9, a title of
    more than 3 characters and a description of more than 20.  A decimal
    digit is a character [str.isdecimal] accepts, and its value is what
    [int] gives for it. *)
Definition leading_1_to_9 (code : str) : bool :=
  match code with
  | c :: _ =>
      match int_of_char c with
      | Ok d => (1 <=? d)%Z
      | Raise _ => false
      end
  | [] => false
  end.

Definition well_shaped (o : Occupation) : bool :=
  (length (nco_code o) =? 4) && forallb Char.isdecimal (nco_code o)
  && leading_1_to_9 (nco_code o)
  && (3 <? length (title o)) && (20 <? length (description o)).

(** The string has a character that is not whitespace. *)
Definition has_text (s : str) : bool :=
  existsb (fun c => negb (Char.isspace c)) s.

(** The record passes the validity gate. *)
Definition valid (o : Occupation) : Prop := is_valid o = Ok true.

(** The record carries a code accepted by [is_valid_nco_code]. *)
Definition code_accepted (o : Occupation) : Prop :=
  is_valid_nco_code (nco_code o) = true.

(** U+00B2, a superscript two: a digit for [str.isdigit], not for [int]. *)
Definition superscript_two : ascii := "178"%char.

(** The column of the assembler-finalization scenario. *)
Definition farmer_column : list str :=
  [ lit "6111 Farmer";
    lit "Grows crops on farmland using traditional methods for sustenance.";
    lit "6112 Gardener";
    lit "x" ].

Definition farmer : Occupation :=
  mkOccupation (lit "6111") (lit "Farmer")
    (lit "Grows crops on farmland using traditional methods for sustenance.").

(** The loop invariant for codes: the records appended so far and the open
    candidate carry accepted codes. *)
Definition codes_accepted (st : state) : Prop :=
  Forall code_accepted (occupations st)
  ∧ ∀ occ, current_occ st = Some occ → code_accepted occ.

(** The stable filter of the de-duplication contract: the record at
    position [i] is kept exactly when no record before it bears its code. *)
Definition first_of_its_code (occs : list Occupation) (i : nat)
    (o : Occupation) : bool :=
  bool_decide (nco_code o ∉ nco_code <$> take i occs).

Definition keep_first_occurrences (occs : list Occupation)
    : list Occupation :=
  concat (imap (fun i o => if first_of_its_code occs i o then [o] else [])
            occs).

(** Noise: the lines the loop drops before any other test. *)
Definition is_noise (line : str) : bool :=
  negb (Str.truthy line) || (length line <? 2)
  || (Re.matches page_number_re line && (length line <=? 3)).

(** The candidate an occupation line opens: none when the cleaned title has
    fewer than 3 characters. *)
Definition fresh_candidate (line : str) : option Occupation :=
  let title := clean_title line in
  if negb (Str.truthy title) || (length title <? 3) then None
  else Some (mkOccupation (first_word line) title []).

(** The state in which the assembler waits for the next code after a stop
    line. *)
Definition resync (occs : list Occupation) : state := mkState occs None [] true.

(** The characters [str.isdigit] accepts, and the strings of four of them. *)
Definition digit_chars : list ascii :=
  lit "0123456789" ++ ["178"; "179"; "185"]%char.

Definition four_digit_tokens : list str :=
  a ← digit_chars; b ← digit_chars; c ← digit_chars; d ← digit_chars;
  [[a; b; c; d]].

(** What the loop tests on a line before it appends it to the buffer. *)
Definition plain_description_line (t : str) : bool :=
  negb (is_noise t) && negb (is_metadata_section t)
  && negb (is_header_line t) && Str.eqb (first_word t) t
  && negb (should_stop_description t).

(** A syntactic test for patterns that cannot match the empty string. *)
Fixpoint consumes (p : Re.pattern) : bool :=
  match p with
  | [] => false
  | Re.One _ :: _ => true
  | Re.Alt alts :: p' => forallb Str.truthy alts || consumes p'
  | _ :: p' => consumes p'
  end.

(** Every character of the string that [str.isdigit] accepts is a decimal
    digit, so that [int] accepts it too.  The characters that fail this are
    the digits that are not decimal: superscripts, circled digits and the
    like. *)
Definition digits_decimal (s : str) : bool :=
  forallb (fun c => negb (Char.isdigit c) || Char.isdecimal c) s.

(** The open candidate, if any, has a code whose digits are all decimal. *)
Definition decimal_candidate (st : state) : Prop :=
  ∀ occ, current_occ st = Some occ → digits_decimal (nco_code occ) = true.

(** Lines the loop passes over: noise, and structural headers that are not
    metadata and do not start with a valid code. *)
Definition passed_over (line : str) : bool :=
  is_noise line
  || (negb (is_metadata_section line) && is_header_line line
      && negb (is_valid_nco_code (first_word line))).

(** The character at an end of a string, if there is one, is not among the
    characters [drop] that stripping removes. *)
Definition keeps (drop : ascii → bool) (o : option ascii) : Prop :=
  ∀ c, o = Some c → drop c = false.

(** The moves of the assembler on a stripped line [l], read off the branches
    of the loop body. *)
Inductive transition (st : state) (l : str) : state → Prop :=
| tr_same :
    (* noise, or a line skipped while waiting for a code *)
    transition st l st
| tr_metadata_idle :
    is_metadata_section l = true →
    current_occ st = None ∨ description_lines st = [] →
    transition st l
      (mkState (occupations st) (current_occ st) (description_lines st) true)
| tr_unflag :
    (* a structural header, or a description line nothing is open for *)
    transition st l
      (mkState (occupations st) (current_occ st) (description_lines st) false)
| tr_close occs' :
    (* a metadata line or a stop line ends the open candidate *)
    is_Some (current_occ st) → finalize_open st = Ok occs' →
    transition st l (mkState occs' None [] true)
| tr_start occs' :
    is_valid_nco_code (first_word l) = true → finalize_open st = Ok occs' →
    transition st l (mkState occs' (fresh_candidate l) [] false)
| tr_append occ :
    current_occ st = Some occ → in_metadata st = false →
    is_noise l = false → is_metadata_section l = false →
    is_header_line l = false → is_valid_nco_code (first_word l) = false →
    should_stop_description l = false →
    transition st l
      (mkState (occupations st) (Some occ) (description_lines st ++ [l]) false).

(** The lines of a column whose first token is a valid code. *)
Definition code_lines (lines : list str) : list str :=
  filter (fun raw => is_valid_nco_code (first_word (Str.strip raw)) = true)
    lines.

(** The shape of what the buffer holds. *)
Definition buffer_line (b : str) : Prop :=
  Str.strip b = b ∧ 2 ≤ length b
  ∧ is_metadata_section b = false ∧ is_header_line b = false
  ∧ is_valid_nco_code (first_word b) = false
  ∧ should_stop_description b = false.

(** The shape of an open candidate. *)
Definition open_candidate (occ : Occupation) : Prop :=
  is_valid_nco_code (nco_code occ) = true
  ∧ 3 ≤ length (title occ)
  ∧ Str.strip_chars (Re.set ";,. ") (title occ) = title occ
  ∧ description occ = [].

Definition well_formed (st : state) : Prop :=
  (in_metadata st = true → description_lines st = [])
  ∧ (current_occ st = None → description_lines st = [])
  ∧ Forall buffer_line (description_lines st)
  ∧ (∀ occ, current_occ st = Some occ → open_candidate occ).

(** Where a record comes from: the code line [raw] and the buffered lines
    [buf], all taken from the lines [seen]. *)
Definition assembled_from (seen : list str) (o : Occupation) : Prop :=
  ∃ raw buf,
    raw ∈ seen ∧ buf ≠ [] ∧ buf `sublist_of` (Str.strip <$> seen)
    ∧ o = mkOccupation (first_word (Str.strip raw))
            (clean_title (Str.strip raw))
            (Str.strip (Str.join (lit " ") buf)).

Definition provenance (seen : list str) (st : state) : Prop :=
  Forall (assembled_from seen) (occupations st)
  ∧ (∀ occ, current_occ st = Some occ →
       ∃ raw, raw ∈ seen
         ∧ occ = mkOccupation (first_word (Str.strip raw))
                   (clean_title (Str.strip raw)) [])
  ∧ description_lines st `sublist_of` (Str.strip <$> seen).

(** The records appended so far, plus the open candidate. *)
Definition open_count (st : state) : nat :=
  length (occupations st) + match current_occ st with Some _ => 1 | None => 0 end.

(** A character of cleaned text: no control character, and no white space
    but the blank. *)
Definition clean_char (c : ascii) : bool :=
  negb (Char.iscontrol c) && (negb (Char.isspace c) || Ascii.eqb c " ").

(** Every run of white space is a single blank. *)
Fixpoint single_spaced (s : str) : bool :=
  match s with
  | [] => true
  | c :: s' =>
      (if Char.isspace c
       then Ascii.eqb c " "
            && match s' with c' :: _ => negb (Char.isspace c') | [] => true end
       else true)
      && single_spaced s'
  end.

(** Text the cleaning pass has nothing to do on. *)
Definition tidy (s : str) : bool :=
  forallb clean_char s && single_spaced s
  && Str.eqb (Str.strip s) s
  && negb (Re.search page_re s) && negb (Re.search code_title_re s).

(** The text mentions "isco", in any letter case. *)
Definition mentions_isco (s : str) : bool :=
  Str.contains (lit "isco") (Str.lower s).

(** The text starts with "isco", in any letter case. *)
Definition starts_isco (s : str) : bool :=
  Str.startswith (lit "isco") (Str.lower s).

(** The columns of the pages of a document that are read, in reading
    order. *)
Definition columns_read {page} (split : page → list str * list str)
    (pdf : list page) : list (list str) :=
  pg ← drop 4 pdf; [(split pg).1; (split pg).2].

(** Each column gives its list of records. *)
Definition column_results (cols : list (list str))
    (parts : list (list Occupation)) : Prop :=
  Forall2 (fun lines occs => extract_occupations_from_column lines = Ok occs)
    cols parts.

(** In all lines of all columns read from the documents, every character
    that [str.isdigit] accepts is a decimal digit. *)
Definition decimal_documents {page} (split : page → list str * list str)
    (pdfs : list (list page)) : Prop :=
  Forall (fun pdf =>
    Forall (fun lines => Forall (fun l => digits_decimal l = true) lines)
      (columns_read split pdf)) pdfs.

(** * Properties *)

(** ** Basic facts about strings *)

Section StringFacts.

Lemma split_from_length s : ∀ w x,
  x ∈ Str.split_from w s → length x ≤ length w + length s.
Proof.
  induction s as [|c s IH]; intros w x; simpl.
  - destruct w; [by intros ?%elem_of_nil|].
    intros ->%list_elem_of_singleton. lia.
  - destruct (Char.isspace c).
    + destruct w as [|a w].
      * intros H%IH. simpl in *. lia.
      * intros [->|H%IH]%elem_of_cons; simpl in *; lia.
    + intros H%IH. rewrite length_app in H. simpl in *. lia.
Qed.

Lemma first_word_length line : length (first_word line) ≤ length line.
Proof.
  unfold first_word, Str.split.
  destruct (Str.split_from [] line) as [|w ws] eqn:E; simpl; [lia|].
  assert (w ∈ Str.split_from [] line) as H by (rewrite E; left).
  apply split_from_length in H. simpl in H. lia.
Qed.

Lemma eqb_eq a b : Str.eqb a b = true ↔ a = b.
Proof.
  revert b. induction a as [|x a IH]; intros [|y b]; simpl; try done.
  rewrite andb_true_iff, Ascii.eqb_eq, IH. split; [intros [-> ->]|intros [= -> ->]]; done.
Qed.

Lemma mem_elem_of s l : Str.mem s l = true ↔ s ∈ l.
Proof.
  unfold Str.mem. rewrite existsb_exists. setoid_rewrite eqb_eq.
  setoid_rewrite <- list_elem_of_In. split; [intros (? & ? & ->)|]; eauto.
Qed.

End StringFacts.

(** ** Code validity *)

Lemma is_valid_nco_code_inv text :
  is_valid_nco_code text = true →
  length text = 4 ∧ Str.isdigit text = true
  ∧ head text ≠ Some "0"%char ∧ (text ∉ YEARS).
Proof.
  unfold is_valid_nco_code.
  destruct (Str.truthy text) eqn:Ht, (Str.isdigit text) eqn:Hd,
    (length text =? 4) eqn:Hl, (Str.mem text YEARS) eqn:Hy;
    cbn [negb orb]; try discriminate;
    try (destruct text as [|c ?]; [discriminate|];
         destruct (Ascii.eqb c "0"); discriminate).
  destruct text as [|c text]; [discriminate|].
  destruct (Ascii.eqb c "0") eqn:Hz; [discriminate|]. intros _.
  apply Nat.eqb_eq in Hl. apply Ascii.eqb_neq in Hz.
  repeat split; [done|simpl; congruence|].
  rewrite <- mem_elem_of. by rewrite Hy.
Qed.

(** C8. The code-validity predicate accepts "6111" and rejects "0111"
    (leading zero), "2015" (a calendar year of the deny-list), "611" (wrong
    length) and "61a1" (a character that is not a digit). *)
Theorem is_valid_nco_code_examples :
  is_valid_nco_code (lit "6111") = true
  ∧ is_valid_nco_code (lit "0111") = false
  ∧ is_valid_nco_code (lit "2015") = false
  ∧ is_valid_nco_code (lit "611") = false
  ∧ is_valid_nco_code (lit "61a1") = false.
Proof. repeat split; reflexivity. Qed.

(** ** The validity gate *)

Lemma lstrip_nil drop s : Str.lstrip drop s = [] ↔ forallb drop s = true.
Proof.
  induction s as [|c s IH]; simpl; [done|].
  destruct (drop c); simpl; [done|]. split; discriminate.
Qed.

Lemma forallb_lstrip drop s :
  forallb drop (Str.lstrip drop s) = forallb drop s.
Proof.
  induction s as [|c s IH]; simpl; [done|].
  destruct (drop c) eqn:E; simpl; [done|]. by rewrite E.
Qed.

Lemma forallb_rev {A} (f : A → bool) l : forallb f (rev l) = forallb f l.
Proof.
  induction l as [|x l IH]; simpl; [done|].
  rewrite forallb_app, IH. simpl. rewrite andb_true_r. apply andb_comm.
Qed.

Lemma strip_chars_nil drop s :
  Str.strip_chars drop s = [] ↔ forallb drop s = true.
Proof.
  unfold Str.strip_chars, Str.rstrip.
  rewrite <- (forallb_lstrip drop s), <- (forallb_rev drop (Str.lstrip drop s)).
  rewrite <- lstrip_nil. split; [|by intros ->].
  intros H. apply (f_equal (@rev ascii)) in H. by rewrite rev_involutive in H.
Qed.

Lemma populated_has_text s : populated s = has_text s.
Proof.
  unfold populated, has_text, Str.strip.
  destruct (forallb Char.isspace s) eqn:E.
  - rewrite (proj2 (strip_chars_nil _ _) E).
    rewrite andb_false_r. symmetry. apply not_true_is_false.
    intros (c & Hc & Hn)%existsb_exists.
    rewrite forallb_forall in E. apply E in Hc. by rewrite Hc in Hn.
  - assert (Str.strip_chars Char.isspace s ≠ []) as Hne.
    { rewrite strip_chars_nil. congruence. }
    destruct s as [|c s]; [done|].
    destruct (Str.strip_chars Char.isspace (c :: s)); [done|]. simpl Str.truthy.
    symmetry. apply not_false_iff_true. intros Hex.
    assert (forallb Char.isspace (c :: s) = true); [|congruence].
    apply forallb_forall. intros x Hx. apply not_false_iff_true. intros Hs.
    assert (existsb (λ c, negb (Char.isspace c)) (c :: s) = true); [|congruence].
    apply existsb_exists. exists x. by rewrite Hs.
Qed.

Lemma isdigit_not_space c : Char.isdigit c = true → Char.isspace c = false.
Proof. by destruct c as [[] [] [] [] [] [] [] []]. Qed.

Lemma int_of_char_ge_1 c d :
  int_of_char c = Ok d → (1 <=? d)%Z = Char.in_range 49 57 c.
Proof.
  unfold int_of_char.
  destruct c as [[] [] [] [] [] [] [] []]; vm_compute; by intros [= <-].
Qed.

Lemma int_of_char_1_to_9 c :
  Char.in_range 49 57 c = true → ∃ d, int_of_char c = Ok d.
Proof.
  unfold int_of_char.
  destruct c as [[] [] [] [] [] [] [] []]; vm_compute; try done; eauto.
Qed.

Lemma digits_populated code :
  length code = 4 → forallb Char.isdigit code = true → populated code = true.
Proof.
  intros Hl Hd. rewrite populated_has_text.
  destruct code as [|c code]; [done|]. simpl in *.
  apply andb_true_iff in Hd as [Hc _].
  by rewrite (isdigit_not_space c Hc).
Qed.

Lemma leading_1_to_9_cons c code :
  leading_1_to_9 (c :: code) = Char.in_range 49 57 c.
Proof. by destruct c as [[] [] [] [] [] [] [] []]. Qed.

Lemma isdecimal_isdigit c : Char.isdecimal c = true → Char.isdigit c = true.
Proof. unfold Char.isdigit. by intros ->. Qed.

Lemma forallb_isdecimal_isdigit s :
  forallb Char.isdecimal s = true → forallb Char.isdigit s = true.
Proof.
  rewrite !forallb_forall. intros H c Hc. by apply isdecimal_isdigit, H.
Qed.

Lemma forallb_isdigit_isdecimal s :
  digits_decimal s = true → forallb Char.isdigit s = true →
  forallb Char.isdecimal s = true.
Proof.
  unfold digits_decimal. rewrite !forallb_forall. intros Hs Hd c Hc.
  specialize (Hs c Hc). by rewrite (Hd c Hc) in Hs.
Qed.

(** C2, as amended: for a record whose code holds no digit that is not
    decimal, [is_valid] returns true exactly when the code has four decimal
    digits with a leading digit from 1 to 9, the title has more than 3
    characters, the description has more than 20, and the title and the
    description each hold a character that is not whitespace. *)
Theorem is_valid_iff o :
  digits_decimal (nco_code o) = true →
  (is_valid o = Ok true ↔
   well_shaped o = true ∧ has_text (title o) = true
   ∧ has_text (description o) = true).
Proof.
  unfold is_valid, well_shaped, and_then, Str.isdigit.
  rewrite <- !populated_has_text.
  destruct o as [code ttl desc]; simpl. intros Hdec.
  split.
  - destruct (populated code) eqn:Hpc; [|done].
    destruct (populated ttl) eqn:Hpt; [|done].
    destruct (populated desc) eqn:Hpd; [|done].
    destruct (length code =? 4) eqn:Hl; [|done].
    destruct code as [|c code]; [done|].
    rewrite leading_1_to_9_cons. cbn [Str.truthy andb].
    destruct (forallb Char.isdigit (c :: code)) eqn:Hd; [|done].
    rewrite (forallb_isdigit_isdecimal _ Hdec Hd). simpl.
    destruct (int_of_char c) as [d|e] eqn:Hi; [|done]. simpl.
    rewrite (int_of_char_ge_1 c d Hi). intros [= ->]. done.
  - intros (Hw & -> & ->).
    repeat (apply andb_true_iff in Hw as [Hw ?]).
    rewrite digits_populated
      by (by try apply Nat.eqb_eq; try apply forallb_isdecimal_isdigit).
    rewrite Hw. destruct code as [|c code]; [done|].
    rewrite leading_1_to_9_cons in *. cbn [Str.truthy andb].
    rewrite forallb_isdecimal_isdigit by done. simpl.
    destruct (int_of_char_1_to_9 c) as [d Hi]; [done|]. rewrite Hi. simpl.
    rewrite (int_of_char_ge_1 c d Hi).
    do 3 match goal with H : _ = true |- _ => rewrite H; clear H end. done.
Qed.

Lemma is_valid_iff_witness :
  is_valid farmer = Ok true ↔
  well_shaped farmer = true ∧ has_text (title farmer) = true
  ∧ has_text (description farmer) = true.
Proof. apply is_valid_iff. reflexivity. Defined.

(** The claim as the data model states it, without the two whitespace
    conditions, fails: a title of four blanks has more than 3 characters but
    the record is rejected. *)
Lemma is_valid_blank_title :
  let o := mkOccupation (lit "6111") (lit "    ")
             (lit "Grows crops on farmland.") in
  well_shaped o = true ∧ is_valid o = Ok false
  ∧ ¬ (is_valid o = Ok true ↔ well_shaped o = true).
Proof.
  cbv zeta. split; [reflexivity|]. split; [reflexivity|].
  intros [_ H]. discriminate H. reflexivity.
Qed.

(** ** The record assembler: what reaches the output *)

Ltac unfold_result :=
  unfold mbind, result_bind, mret, result_ret in *.

Lemma finalize_cases occs occ buf occs' :
  finalize occs occ buf = Ok occs' →
  (is_valid (with_description occ buf) = Ok true
   ∧ occs' = occs ++ [with_description occ buf])
  ∨ (is_valid (with_description occ buf) = Ok false ∧ occs' = occs).
Proof.
  unfold finalize. unfold_result.
  destruct (is_valid (with_description occ buf)) as [[]|]; intros [=]; eauto.
Qed.

Lemma finalize_open_cases st occs' :
  finalize_open st = Ok occs' →
  occs' = occupations st
  ∨ ∃ occ, current_occ st = Some occ ∧ description_lines st ≠ []
      ∧ valid (with_description occ (description_lines st))
      ∧ occs' = occupations st ++ [with_description occ (description_lines st)].
Proof.
  unfold finalize_open. unfold_result.
  destruct (current_occ st) as [occ|]; [|intros [=]; eauto].
  destruct (description_lines st) as [|l ls] eqn:E; [intros [=]; eauto|].
  intros [[Hv ->]| [_ ->]]%finalize_cases; [right|by left].
  by exists occ.
Qed.

(** The four places where a record is appended all go through [finalize];
    every other path leaves [occupations] as it is. *)
Lemma step_occupations st raw st' :
  step st raw = Ok st' →
  occupations st' = occupations st
  ∨ ∃ occ, current_occ st = Some occ ∧ description_lines st ≠ []
      ∧ valid (with_description occ (description_lines st))
      ∧ occupations st' =
          occupations st ++ [with_description occ (description_lines st)].
Proof.
  assert (∀ occs' b c l,
    finalize_open st = Ok occs' → st' = mkState occs' c l b →
    occupations st' = occupations st
    ∨ ∃ occ, current_occ st = Some occ ∧ description_lines st ≠ []
        ∧ valid (with_description occ (description_lines st))
        ∧ occupations st' =
            occupations st ++ [with_description occ (description_lines st)])
    as Hfin.
  { intros occs' b c l Hf ->. simpl.
    apply finalize_open_cases in Hf as [->|?]; eauto. }
  unfold step; cbv zeta. unfold_result.
  destruct (negb _ || _); [by intros [= <-]; left|].
  destruct (Re.matches _ _ && _); [by intros [= <-]; left|].
  destruct (is_metadata_section _).
  { pose proof Hfin as Hfin'. unfold finalize_open in Hfin'.
    destruct (current_occ st) as [occ|]; [|by intros [= <-]; left].
    destruct (description_lines st) as [|x buf]; [by intros [= <-]; left|].
    destruct (finalize _ _ _) as [occs'|] eqn:Hf; [|done].
    intros [= <-]. by eapply Hfin'. }
  destruct (in_metadata st && _); [by intros [= <-]; left|].
  destruct (is_header_line _); [by intros [= <-]; left|].
  destruct (is_valid_nco_code _).
  { destruct (finalize_open st) as [occs'|] eqn:Hf; [|done].
    destruct (negb _ || _); intros [= <-]; by eapply Hfin. }
  pose proof Hfin as Hfin'. unfold finalize_open in Hfin'.
  destruct (current_occ st) as [occ|]; [|by intros [= <-]; left].
  destruct (should_stop_description _).
  { destruct (description_lines st) as [|x buf]; [by intros [= <-]; left|].
    destruct (finalize _ _ _) as [occs'|] eqn:Hf; [|done].
    intros [= <-]. by eapply Hfin'. }
  destruct (negb _ && _); by intros [= <-]; left.
Qed.

Lemma run_valid lines : ∀ st st',
  Forall valid (occupations st) → run st lines = Ok st' →
  Forall valid (occupations st').
Proof.
  induction lines as [|raw lines IH]; intros st st' Hst; simpl.
  - by intros [= <-].
  - unfold_result. destruct (step st raw) as [st1|] eqn:Hs; [|done].
    apply IH. apply step_occupations in Hs as [->|(occ & _ & _ & Hv & ->)];
      [done|]. apply Forall_app; split; [done|]. by apply Forall_singleton.
Qed.

(** X3.  Whenever the column extractor returns, every record it returns passed
    the validity gate. *)
Lemma extract_output_valid lines occs :
  extract_occupations_from_column lines = Ok occs → Forall valid occs.
Proof.
  unfold extract_occupations_from_column. unfold_result.
  destruct (run initial lines) as [st|] eqn:Hr; [|done].
  apply run_valid in Hr; [|by apply Forall_nil].
  intros [->|(occ & _ & _ & Hv & ->)]%finalize_open_cases; [done|].
  apply Forall_app; split; [done|]. by apply Forall_singleton.
Qed.

(** C1. The validity gate is meant to drop malformed candidates without an
    error.  A candidate whose code starts with a superscript digit passes
    [is_valid_nco_code] and [str.isdigit], and [int] then raises
    [ValueError] at the first finalization: the extractor returns nothing. *)
Theorem extract_raises_on_superscript_code :
  let lines := [ superscript_two :: lit "111 Farmer";
                 lit "Grows crops on farmland using traditional methods." ] in
  is_valid_nco_code (superscript_two :: lit "111") = true
  ∧ extract_occupations_from_column lines = Raise ValueError.
Proof. split; reflexivity. Qed.

(** C7. The four-line column yields exactly the record 6111 "Farmer" with
    its description of more than 20 characters; the candidate 6112 is not
    emitted.  A candidate still open at the end of the input is finalized
    once. *)
Theorem extract_farmer_column :
  extract_occupations_from_column farmer_column = Ok [farmer]
  ∧ nco_code farmer = lit "6111" ∧ title farmer = lit "Farmer"
  ∧ 20 < length (description farmer)
  ∧ extract_occupations_from_column (take 2 farmer_column) = Ok [farmer].
Proof. repeat split; try reflexivity. vm_compute. lia. Qed.

(** ** The codes that reach the output *)

Lemma step_current st raw st' occ' :
  step st raw = Ok st' → current_occ st' = Some occ' →
  current_occ st = Some occ' ∨ code_accepted occ'.
Proof.
  unfold step, code_accepted; cbv zeta. unfold_result.
  destruct (negb _ || _); [by intros [= <-]; left|].
  destruct (Re.matches _ _ && _); [by intros [= <-]; left|].
  destruct (is_metadata_section _).
  { destruct (current_occ st) as [occ|]; [|by intros [= <-]].
    destruct (description_lines st) as [|x buf]; [by intros [= <-]; left|].
    destruct (finalize _ _ _); [|done]. by intros [= <-]. }
  destruct (in_metadata st && _); [by intros [= <-]; left|].
  destruct (is_header_line _); [by intros [= <-]; left|].
  destruct (is_valid_nco_code _) eqn:Hcode.
  { destruct (finalize_open st); [|done].
    destruct (negb _ || _); intros [= <-]; [done|]. intros [= <-]. by right. }
  destruct (current_occ st) as [occ|]; [|by intros [= <-]].
  destruct (should_stop_description _).
  { destruct (description_lines st) as [|x buf]; [by intros [= <-]|].
    destruct (finalize _ _ _); [|done]. by intros [= <-]. }
  destruct (negb _ && _); by intros [= <-]; left.
Qed.

Lemma step_codes_accepted st raw st' :
  codes_accepted st → step st raw = Ok st' → codes_accepted st'.
Proof.
  intros [Hocc Hcur] Hs. split.
  - apply step_occupations in Hs as [->|(occ & Hc & _ & _ & ->)]; [done|].
    apply Forall_app; split; [done|]. apply Forall_singleton.
    exact (Hcur occ Hc).
  - intros occ' Hc'. destruct (step_current _ _ _ _ Hs Hc'); eauto.
Qed.

Lemma run_codes_accepted lines : ∀ st st',
  codes_accepted st → run st lines = Ok st' → codes_accepted st'.
Proof.
  induction lines as [|raw lines IH]; intros st st' Hst; simpl.
  - by intros [= <-].
  - unfold_result. destruct (step st raw) as [st1|] eqn:Hs; [|done].
    apply IH. by eapply step_codes_accepted.
Qed.

(** C9. Every record the column extractor returns carries a code accepted
    by [is_valid_nco_code]; in particular no calendar year of the deny-list
    and no code with a leading zero reaches the output. *)
Theorem extract_codes_accepted lines occs :
  extract_occupations_from_column lines = Ok occs →
  Forall (fun o => is_valid_nco_code (nco_code o) = true
                   ∧ (nco_code o ∉ YEARS)
                   ∧ head (nco_code o) ≠ Some "0"%char) occs.
Proof.
  unfold extract_occupations_from_column. unfold_result.
  destruct (run initial lines) as [st|] eqn:Hr; [|done].
  assert (codes_accepted st) as [Hocc Hcur].
  { apply (run_codes_accepted lines initial st); [|exact Hr].
    split; [by apply Forall_nil|]. intros occ. discriminate. }
  intros Hf. assert (Forall code_accepted occs) as Hall.
  { apply finalize_open_cases in Hf as [->|(occ & Hc & _ & _ & ->)]; [done|].
    apply Forall_app; split; [done|]. apply Forall_singleton.
    exact (Hcur occ Hc). }
  eapply Forall_impl; [exact Hall|]. intros o Ho.
  destruct (is_valid_nco_code_inv _ Ho) as (_ & _ & Hz & Hy). done.
Qed.

Lemma extract_codes_accepted_witness :
  Forall (fun o => is_valid_nco_code (nco_code o) = true
                   ∧ (nco_code o ∉ YEARS)
                   ∧ head (nco_code o) ≠ Some "0"%char) [farmer].
Proof.
  apply (extract_codes_accepted farmer_column [farmer]). reflexivity.
Defined.

(** ** De-duplication *)

Section Deduplicate.

Implicit Types (occs pre rest unique : list Occupation) (seen : gset str).

Lemma deduplicate_from_keep rest : ∀ pre seen unique,
  (∀ c, c ∈ seen ↔ c ∈ nco_code <$> pre) →
  deduplicate_from seen unique rest =
  unique ++ concat (imap (fun i o =>
    if first_of_its_code (pre ++ rest) (length pre + i) o then [o] else [])
    rest).
Proof.
  induction rest as [|o rest IH]; intros pre seen unique Hseen; simpl.
  { by rewrite app_nil_r. }
  unfold first_of_its_code at 1.
  rewrite Nat.add_0_r, take_app_length.
  assert (∀ i o', first_of_its_code (pre ++ o :: rest) (length pre + S i) o'
                  = first_of_its_code ((pre ++ [o]) ++ rest)
                      (length (pre ++ [o]) + i) o') as Hshift.
  { intros i o'. rewrite <- app_assoc, length_app. simpl.
    by rewrite <- Nat.add_assoc. }
  rewrite (imap_ext _ (fun i o' =>
    if first_of_its_code ((pre ++ [o]) ++ rest) (length (pre ++ [o]) + i) o'
    then [o'] else [])); [|intros i o' _; simpl; by rewrite Hshift].
  destruct (decide (nco_code o ∉ seen)) as [Hnew|Hold].
  - rewrite bool_decide_eq_true_2 by (by rewrite <- Hseen).
    rewrite (IH (pre ++ [o])), <- app_assoc; [done|].
    intros c. rewrite fmap_app, elem_of_app, elem_of_union, Hseen.
    simpl. rewrite list_elem_of_singleton, elem_of_singleton. tauto.
  - rewrite bool_decide_eq_false_2 by (by rewrite <- Hseen).
    rewrite (IH (pre ++ [o])); [done|].
    intros c. rewrite fmap_app, elem_of_app, Hseen.
    simpl. rewrite list_elem_of_singleton. split; [tauto|].
    intros [?| ->]; [done|]. apply Hseen. by apply dec_stable.
Qed.

Lemma deduplicate_keep occs : deduplicate occs = keep_first_occurrences occs.
Proof.
  unfold deduplicate, keep_first_occurrences.
  rewrite (deduplicate_from_keep occs [] ∅ []); [done|].
  intros c. simpl. rewrite elem_of_nil. set_solver.
Qed.

Lemma select_sublist (keep : nat → Occupation → bool) occs :
  concat (imap (fun i o => if keep i o then [o] else []) occs) `sublist_of` occs.
Proof.
  revert keep. induction occs as [|o occs IH]; intros keep; simpl; [done|].
  destruct (keep 0 o); simpl.
  - apply sublist_skip, (IH (keep ∘ S)).
  - apply sublist_cons, (IH (keep ∘ S)).
Qed.

Lemma deduplicate_from_NoDup rest : ∀ seen unique,
  NoDup (nco_code <$> unique) →
  (∀ c, c ∈ nco_code <$> unique → c ∈ seen) →
  NoDup (nco_code <$> deduplicate_from seen unique rest).
Proof.
  induction rest as [|o rest IH]; intros seen unique Hnd Hin; simpl; [done|].
  destruct (decide (nco_code o ∉ seen)) as [Hnew|Hold]; [|by apply IH].
  apply IH.
  - rewrite fmap_app. apply NoDup_app. split; [done|]. split.
    + intros c Hc ->%list_elem_of_singleton. by apply Hnew, Hin.
    + apply NoDup_singleton.
  - intros c. rewrite fmap_app, elem_of_app. simpl.
    rewrite list_elem_of_singleton, elem_of_union, elem_of_singleton.
    intros [?%Hin| ->]; eauto.
Qed.

(** C5. [deduplicate] is the stable filter keyed by [nco_code]: a record is
    kept exactly when no earlier record bears its code, the kept records
    stay in their original order, no code occurs twice in the result, and
    records with the codes 6111, 6112, 6111 yield the first and the
    second. *)
Theorem deduplicate_stable_first_wins occs :
  deduplicate occs = keep_first_occurrences occs
  ∧ deduplicate occs `sublist_of` occs
  ∧ NoDup (nco_code <$> deduplicate occs)
  ∧ ∀ t1 d1 t2 d2 t3 d3,
      deduplicate [ mkOccupation (lit "6111") t1 d1;
                    mkOccupation (lit "6112") t2 d2;
                    mkOccupation (lit "6111") t3 d3 ]
      = [ mkOccupation (lit "6111") t1 d1; mkOccupation (lit "6112") t2 d2 ].
Proof.
  split; [apply deduplicate_keep|]. split.
  { rewrite deduplicate_keep. apply select_sublist. }
  split.
  { apply deduplicate_from_NoDup; [apply NoDup_nil_2|].
    intros c. simpl. by rewrite elem_of_nil. }
  intros. rewrite deduplicate_keep. reflexivity.
Qed.

End Deduplicate.

(** ** The record assembler, line by line *)

Lemma noise_false l :
  is_noise l = false →
  negb (Str.truthy l) || (length l <? 2) = false
  ∧ Re.matches page_number_re l && (length l <=? 3) = false.
Proof. unfold is_noise. by intros [? ?]%orb_false_iff. Qed.

Lemma code_line_not_noise l :
  is_valid_nco_code (first_word l) = true → is_noise l = false.
Proof.
  intros (Hl & _)%is_valid_nco_code_inv.
  pose proof (first_word_length l) as Hle. rewrite Hl in Hle.
  unfold is_noise. destruct l as [|c l]; [simpl in Hle; lia|].
  cbn [Str.truthy negb orb].
  rewrite (proj2 (Nat.ltb_ge _ _)) by lia.
  rewrite (proj2 (Nat.leb_gt _ _)) by lia.
  by rewrite andb_false_r.
Qed.

Ltac use_tests :=
  repeat match goal with
    | H : ?b = true |- context [?b] => rewrite H
    | H : ?b = false |- context [?b] => rewrite H
    end;
  cbn [negb orb andb].

Ltac enter_step H :=
  unfold step; cbv zeta;
  destruct (noise_false _ H) as [-> ->].

(** A code line that is not a metadata line: it clears the metadata flag; it
    is dropped when it is a structural header, and it opens a candidate
    otherwise. *)
Lemma step_code_line st raw :
  let l := Str.strip raw in
  is_metadata_section l = false → is_valid_nco_code (first_word l) = true →
  step st raw =
    if is_header_line l
    then Ok (mkState (occupations st) (current_occ st)
               (description_lines st) false)
    else occs ← finalize_open st;
         mret (mkState occs (fresh_candidate l) [] false).
Proof.
  intros l Hm Hc. subst l. pose proof (code_line_not_noise _ Hc) as Hn.
  enter_step Hn. use_tests. rewrite andb_false_r.
  destruct (is_header_line _); [done|].
  unfold fresh_candidate. unfold_result.
  destruct (finalize_open st); [|done].
  by destruct (negb _ || _).
Qed.

(** C3, as amended.  The structural-header test runs before the
    occupation-start test.  A line that is not metadata and whose first
    token is a valid code is never noise and always clears the metadata
    flag; when [is_header_line] holds for it (for instance because it
    contains a header keyword) it is dropped with the candidate and the
    buffer untouched; otherwise the open candidate is finalized and the line
    opens a new candidate with that code, provided the cleaned title has at
    least 3 characters. *)
Theorem header_test_precedes_occupation_start st raw :
  let l := Str.strip raw in
  is_metadata_section l = false → is_valid_nco_code (first_word l) = true →
  is_noise l = false
  ∧ (is_header_line l = true →
     step st raw = Ok (mkState (occupations st) (current_occ st)
                         (description_lines st) false))
  ∧ (is_header_line l = false →
     step st raw = occs ← finalize_open st;
                   mret (mkState occs (fresh_candidate l) [] false))
  ∧ (is_header_line l = false → 3 ≤ length (clean_title l) →
     ∀ occs, finalize_open st = Ok occs →
     step st raw =
       Ok (mkState occs
             (Some (mkOccupation (first_word l) (clean_title l) [])) []
             false)).
Proof.
  intros l Hm Hc. pose proof (step_code_line st raw Hm Hc) as Hs.
  fold l in Hs. split; [by apply code_line_not_noise|].
  split; [by intros Hh; rewrite Hh in Hs|].
  split; [by intros Hh; rewrite Hh in Hs|].
  intros Hh Hlen occs Hf. rewrite Hh, Hf in Hs. rewrite Hs.
  unfold_result. unfold fresh_candidate.
  destruct (clean_title l) as [|c t]; [simpl in Hlen; lia|].
  cbn [Str.truthy negb orb]. by rewrite (proj2 (Nat.ltb_ge _ _)).
Qed.

Lemma header_test_precedes_occupation_start_witness :
  step initial (lit "6111 Farmer") =
    Ok (mkState [] (Some (mkOccupation (lit "6111") (lit "Farmer") [])) []
          false)
  ∧ step initial (lit "6111 Group Leaders") = Ok initial.
Proof.
  split.
  - refine (proj2 (proj2 (proj2 (header_test_precedes_occupation_start
      initial (lit "6111 Farmer") _ _))) _ _ [] _);
      first [reflexivity | vm_compute; lia].
  - refine (proj1 (proj2 (header_test_precedes_occupation_start
      initial (lit "6111 Group Leaders") _ _)) _); reflexivity.
Defined.

(** The claim as stated fails: a line that is neither noise nor metadata
    and starts with the valid code 6111 opens no candidate when it contains
    the keyword "group"; with the description that follows it the column
    yields no record, where the same lines with a title free of keywords
    yield one. *)
Lemma code_line_with_keyword_is_dropped :
  let raw := lit "6111 Group Leaders" in
  let desc := lit "Grows crops on farmland using traditional methods." in
  is_noise (Str.strip raw) = false
  ∧ is_metadata_section (Str.strip raw) = false
  ∧ is_valid_nco_code (first_word (Str.strip raw)) = true
  ∧ step initial raw = Ok initial
  ∧ current_occ initial = None
  ∧ extract_occupations_from_column [raw; desc] = Ok []
  ∧ extract_occupations_from_column [lit "6111 Crew Leaders"; desc] =
      Ok [mkOccupation (lit "6111") (lit "Crew Leaders") desc].
Proof. repeat split; reflexivity. Qed.

(** A line of the description branch: not noise, not metadata, not a header,
    not a code line. *)
Lemma step_description_line st occ raw :
  let l := Str.strip raw in
  is_noise l = false → is_metadata_section l = false →
  is_header_line l = false → is_valid_nco_code (first_word l) = false →
  current_occ st = Some occ → in_metadata st = false →
  step st raw =
    if should_stop_description l
    then occs ← finalize_open st; mret (mkState occs None [] true)
    else Ok (mkState (occupations st) (Some occ)
               (description_lines st ++ [l]) false).
Proof.
  intros l Hn Hm Hh Hc Hcur Hflag. subst l.
  enter_step Hn. unfold finalize_open. rewrite Hcur, Hflag. use_tests.
  destruct (should_stop_description _); [|done].
  by destruct (description_lines st).
Qed.

(** While the assembler waits for a code with nothing open, a line whose
    first token is not a valid code, or which is a metadata line, changes
    nothing. *)
Lemma step_resync_skip occs raw :
  is_valid_nco_code (first_word (Str.strip raw)) = false
  ∨ is_metadata_section (Str.strip raw) = true →
  step (resync occs) raw = Ok (resync occs).
Proof.
  intros Hc. unfold step, resync; cbv zeta.
  destruct (negb _ || _); [done|]. destruct (Re.matches _ _ && _); [done|].
  destruct (is_metadata_section _); [done|].
  destruct Hc as [->|?]; done.
Qed.

Lemma run_resync_skip occs skipped :
  Forall (fun raw =>
            is_valid_nco_code (first_word (Str.strip raw)) = false
            ∨ is_metadata_section (Str.strip raw) = true) skipped →
  run (resync occs) skipped = Ok (resync occs).
Proof.
  induction 1 as [|raw skipped Hc _ IH]; simpl; [done|].
  rewrite (step_resync_skip occs raw Hc). exact IH.
Qed.

(** C6, as amended.  While a candidate is open and the metadata flag is
    clear, a description line that satisfies the stop predicate finalizes
    the open candidate (a record is appended only when the buffer is
    non-empty and the record is valid), clears it and sets the metadata
    flag.  From then on every line whose first token is not a valid code, or
    which is a metadata line, leaves the state as it is.  The first line
    whose first token is a valid code and which is not itself a metadata
    line clears the flag; it opens a fresh candidate unless it is a
    structural header or its cleaned title has fewer than 3 characters. *)
Theorem stop_line_then_resync occs occ buf stop_raw skipped code_raw occs' :
  let st := mkState occs (Some occ) buf false in
  let l := Str.strip stop_raw in
  let c := Str.strip code_raw in
  is_noise l = false → is_metadata_section l = false →
  is_header_line l = false → is_valid_nco_code (first_word l) = false →
  should_stop_description l = true →
  finalize_open st = Ok occs' →
  Forall (fun raw =>
            is_valid_nco_code (first_word (Str.strip raw)) = false
            ∨ is_metadata_section (Str.strip raw) = true) skipped →
  is_valid_nco_code (first_word c) = true → is_metadata_section c = false →
  step st stop_raw = Ok (resync occs')
  ∧ (occs' = occs
     ∨ buf ≠ [] ∧ valid (with_description occ buf)
       ∧ occs' = occs ++ [with_description occ buf])
  ∧ run (resync occs') skipped = Ok (resync occs')
  ∧ step (resync occs') code_raw =
      Ok (mkState occs'
            (if is_header_line c then None else fresh_candidate c) [] false)
  ∧ run st (stop_raw :: skipped ++ [code_raw]) =
      Ok (mkState occs'
            (if is_header_line c then None else fresh_candidate c) [] false).
Proof.
  intros st l c Hn Hm Hh Hc Hstop Hf Hskip Hcode Hcm.
  assert (step st stop_raw = Ok (resync occs')) as Hs1.
  { rewrite (step_description_line st occ stop_raw Hn Hm Hh Hc eq_refl eq_refl).
    fold l. rewrite Hstop, Hf. done. }
  assert (step (resync occs') code_raw =
          Ok (mkState occs'
                (if is_header_line c then None else fresh_candidate c) []
                false)) as Hs3.
  { rewrite (step_code_line _ code_raw Hcm Hcode). fold c.
    by destruct (is_header_line c). }
  pose proof (run_resync_skip occs' skipped Hskip) as Hs2.
  split; [done|]. split.
  { apply finalize_open_cases in Hf as [->|(o & [= <-] & Hb & Hv & ->)];
      [by left|right; done]. }
  split; [done|]. split; [done|].
  assert (∀ lines s1 s2 s3 raw,
    run s1 lines = Ok s2 → step s2 raw = Ok s3 →
    run s1 (lines ++ [raw]) = Ok s3) as Hsnoc.
  { induction lines as [|x lines IH]; intros s1 s2 s3 raw; simpl.
    - intros [= ->] ->. done.
    - unfold_result. destruct (step s1 x); [|done]. apply IH. }
  change (run st (stop_raw :: skipped ++ [code_raw]))
    with (st' ← step st stop_raw; run st' (skipped ++ [code_raw])).
  rewrite Hs1. exact (Hsnoc _ _ _ _ _ Hs2 Hs3).
Qed.

Lemma stop_line_then_resync_witness :
  let desc := lit "Grows crops on farmland using traditional methods." in
  let occs' := [mkOccupation (lit "6111") (lit "Farmer") desc] in
  run (mkState [] (Some (mkOccupation (lit "6111") (lit "Farmer") []))
         [desc] false)
    (lit "see Isco-08 for details"
       :: [lit "intervening text"; lit "12"; lit "6112 Farm Sector Worker";
           lit "Page 7 of the annexure"]
       ++ [lit "6112 Gardener"]) =
  Ok (mkState occs' (Some (mkOccupation (lit "6112") (lit "Gardener") []))
        [] false).
Proof.
  cbv zeta.
  refine (proj2 (proj2 (proj2 (proj2 (stop_line_then_resync
    [] (mkOccupation (lit "6111") (lit "Farmer") [])
    [lit "Grows crops on farmland using traditional methods."]
    (lit "see Isco-08 for details")
    [lit "intervening text"; lit "12"; lit "6112 Farm Sector Worker";
     lit "Page 7 of the annexure"]
    (lit "6112 Gardener")
    [mkOccupation (lit "6111") (lit "Farmer")
       (lit "Grows crops on farmland using traditional methods.")]
    _ _ _ _ _ _ _ _ _))))); try reflexivity.
  repeat (apply Forall_cons; split;
          [first [left; reflexivity | right; reflexivity]|]).
  apply Forall_nil_2.
Defined.

(** The claim as stated fails in its last part: after a stop line, a line
    whose first token is the valid code 6112 but which contains the
    metadata keyword "sector" neither clears the flag nor opens a candidate,
    and the code line "6111 Group Leaders" clears the flag without opening
    one.  It also fails in its first part when the metadata flag is set:
    after "6111 Farmer" and the metadata line "nsqf level" a candidate is
    open, and a stop line is skipped with the candidate left open. *)
Lemma code_line_after_stop_opens_nothing :
  let raw := lit "6112 Farm Sector Worker" in
  let waiting :=
    mkState [] (Some (mkOccupation (lit "6111") (lit "Farmer") [])) [] true in
  is_valid_nco_code (first_word (Str.strip raw)) = true
  ∧ step (resync []) raw = Ok (resync [])
  ∧ in_metadata (resync []) = true ∧ current_occ (resync []) = None
  ∧ is_valid_nco_code (first_word (lit "6111 Group Leaders")) = true
  ∧ step (resync []) (lit "6111 Group Leaders") = Ok (mkState [] None [] false)
  ∧ run initial [lit "6111 Farmer"; lit "nsqf level"] = Ok waiting
  ∧ should_stop_description (lit "see Isco-08 for details") = true
  ∧ step waiting (lit "see Isco-08 for details") = Ok waiting.
Proof. repeat split; reflexivity. Qed.

(** ** Which lines the stop predicate can end a candidate on *)

Lemma startswith_length p s : Str.startswith p s = true → length p ≤ length s.
Proof.
  revert s. induction p as [|a p IH]; intros [|b s]; simpl; try done; [lia|].
  intros [_ H%IH]%andb_true_iff. lia.
Qed.

Lemma contains_length sub s : Str.contains sub s = true → length sub ≤ length s.
Proof.
  induction s as [|c s IH]; simpl.
  - rewrite orb_false_r. apply startswith_length.
  - intros [H%startswith_length|H%IH]%orb_true_iff; simpl in *; lia.
Qed.

Lemma startswith_contains p s : Str.startswith p s = true → Str.contains p s = true.
Proof. intros H. destruct s; simpl in *; by rewrite H. Qed.

Lemma contains_cons sub c s : Str.contains sub s = true → Str.contains sub (c :: s) = true.
Proof. intros H. simpl. rewrite H. apply orb_true_r. Qed.

Lemma contains_drop sub n s : Str.contains sub (drop n s) = true → Str.contains sub s = true.
Proof.
  revert s. induction n as [|n IH]; intros [|c s]; simpl drop; try done.
  intros H%IH. by apply contains_cons.
Qed.

Lemma startswith_app a b s :
  Str.startswith (a ++ b) s = true → Str.startswith b (drop (length a) s) = true.
Proof.
  revert s. induction a as [|x a IH]; intros s; simpl; [done|].
  destruct s as [|y s]; [done|]. intros [_ H]%andb_true_iff. by apply IH.
Qed.

Lemma contains_app a b s : Str.contains (a ++ b) s = true → Str.contains b s = true.
Proof.
  induction s as [|c s IH]; intros H.
  - apply orb_true_iff in H as [H|H]; [|done].
    apply (contains_drop b (length a) []), startswith_contains.
    by apply startswith_app.
  - cbn [Str.contains] in H. apply orb_true_iff in H as [H|H].
    + apply (contains_drop b (length a)), startswith_contains.
      by apply startswith_app.
    + by apply contains_cons, IH.
Qed.

Lemma match_text_startswith w rest : ∀ prev s,
  Re.match_here (map Re.chr w ++ rest) prev s ≠ None →
  Str.startswith w s = true.
Proof.
  induction w as [|c w IH]; intros prev s; [done|].
  destruct s as [|x s]; simpl; [done|].
  destruct (Ascii.eqb c x); [|done]. simpl. intros H. apply (IH (Some x)).
  by destruct (Re.match_here _ _ _).
Qed.

Lemma search_text_contains w rest s : ∀ prev,
  Re.search_from (map Re.chr w ++ rest) prev s = true →
  Str.contains w s = true.
Proof.
  induction s as [|c s IH]; intros prev; simpl.
  - destruct (Re.match_here _ _ _) eqn:E; [|done]. intros _.
    rewrite orb_false_r. apply (match_text_startswith w rest prev). congruence.
  - destruct (Re.match_here _ _ _) eqn:E.
    + intros _. apply orb_true_iff. left.
      apply (match_text_startswith w rest prev). congruence.
    + intros H%IH. rewrite H. apply orb_true_r.
Qed.

(** X4.  A line on which the stop predicate fires through a "unit group" or
    "sub-group" marker contains the header keyword "group", and one on which
    it fires through "qualification pack" or "qp-nos" contains a metadata
    keyword: the loop has dropped or handled such a line before it consults
    the stop predicate.  The only stop lines that reach it are those with an
    ISCO-08 reference. *)
Lemma stop_line_is_isco08 l :
  should_stop_description l = true →
  is_header_line l = false → is_metadata_section l = false →
  Re.search (Re.text "isco"
               ++ [Re.Star (Re.union (Re.set "-") Char.isspace)]
               ++ Re.text "08") (Str.strip (Str.lower l)) = true.
Proof.
  unfold should_stop_description, is_header_line, is_metadata_section.
  set (ll := Str.strip (Str.lower l)).
  assert (Str.contains (lit "group") ll = true →
          (if length ll <? 5 then false
           else if existsb (λ k, Str.contains k ll) HEADER_KEYWORDS then true
           else if (length (Str.split l) <=? 6) && Str.isupper l
                then match Str.split l with
                     | w :: _ => negb (is_valid_nco_code w)
                     | [] => false
                     end
                else false) = true) as Hgroup.
  { intros Hg. pose proof (contains_length _ _ Hg) as Hlen. simpl in Hlen.
    rewrite (proj2 (Nat.ltb_ge _ _)) by lia.
    assert (existsb (λ k, Str.contains k ll) HEADER_KEYWORDS = true) as ->; [|done].
    apply existsb_exists. exists (lit "group"). split; [|done].
    unfold HEADER_KEYWORDS. apply list_elem_of_In. set_solver. }
  cbn [ISCO_PATTERNS existsb].
  destruct (Re.search _ ll) eqn:E1; [done|].
  destruct (Re.search _ ll) eqn:E2 in |- *.
  { intros _. apply search_text_contains in E2.
    apply (contains_app (lit "unit ") (lit "group")) in E2.
    rewrite (Hgroup E2). done. }
  destruct (Re.search _ ll) eqn:E3 in |- *.
  { intros _. apply search_text_contains in E3.
    apply (contains_app (lit "sub-") (lit "group")) in E3.
    rewrite (Hgroup E3). done. }
  cbn [orb].
  destruct (Str.contains (lit "qualification pack") ll) eqn:Hq.
  { intros _ _. unfold METADATA_KEYWORDS. cbn [map existsb].
    rewrite Hq. done. }
  destruct (Str.contains (lit "qp-nos") ll) eqn:Hn; [|done].
  intros _ _. unfold METADATA_KEYWORDS. cbn [map existsb].
  rewrite Hn, orb_true_r. done.
Qed.

(** The line "ISCO-08 Unit Group: 6111" satisfies the stop predicate, but it
    contains "group": the loop skips it as a structural header and the
    candidate stays open. *)
Lemma unit_group_line_is_header :
  let raw := lit "ISCO-08 Unit Group: 6111" in
  let st := mkState [] (Some (mkOccupation (lit "6111") (lit "Farmer") []))
              [lit "Grows crops on farmland."] false in
  should_stop_description raw = true ∧ is_header_line raw = true
  ∧ step st raw = Ok st.
Proof. repeat split; reflexivity. Qed.

(** ** Four-digit tokens that are not codes *)

Lemma isdigit_digit_chars c : Char.isdigit c = true → c ∈ digit_chars.
Proof.
  destruct c as [[] [] [] [] [] [] [] []]; try discriminate; intros _;
    unfold digit_chars; simpl; set_solver.
Qed.

Lemma four_digit_tokens_complete t :
  length t = 4 → forallb Char.isdigit t = true → t ∈ four_digit_tokens.
Proof.
  destruct t as [|a [|b [|c [|d [|]]]]]; try discriminate. intros _. simpl.
  rewrite !andb_true_iff.
  intros (Ha%isdigit_digit_chars & Hb%isdigit_digit_chars
          & Hc%isdigit_digit_chars & Hd%isdigit_digit_chars & _).
  unfold four_digit_tokens.
  apply list_elem_of_bind; exists a; split; [|done].
  apply list_elem_of_bind; exists b; split; [|done].
  apply list_elem_of_bind; exists c; split; [|done].
  apply list_elem_of_bind; exists d; split; [|done].
  apply list_elem_of_singleton. done.
Qed.

Lemma four_digit_tokens_plain :
  forallb (fun t => is_valid_nco_code t || plain_description_line t)
    four_digit_tokens = true.
Proof. vm_compute. reflexivity. Qed.

(** C10. A line that is a single token of four digits which is not a valid
    code (a calendar year of the deny-list, a leading zero), met while a
    candidate is open and the metadata flag is clear, is appended to the
    description buffer: it is not noise, not metadata and not a structural
    header. *)
Theorem invalid_four_digit_line_is_appended occs occ buf raw :
  let t := Str.strip raw in
  length t = 4 → forallb Char.isdigit t = true →
  is_valid_nco_code t = false →
  is_noise t = false ∧ is_metadata_section t = false
  ∧ is_header_line t = false
  ∧ step (mkState occs (Some occ) buf false) raw =
      Ok (mkState occs (Some occ) (buf ++ [t]) false).
Proof.
  intros t Hl Hd Hv.
  pose proof (four_digit_tokens_complete t Hl Hd) as Hin.
  pose proof four_digit_tokens_plain as Hall.
  rewrite forallb_forall in Hall.
  apply list_elem_of_In, Hall in Hin. rewrite Hv in Hin.
  unfold plain_description_line in Hin. cbn [orb] in Hin.
  repeat (apply andb_true_iff in Hin as [Hin ?]).
  repeat match goal with
    | H : negb _ = true |- _ => apply negb_true_iff in H
    | H : Str.eqb _ _ = true |- _ => apply eqb_eq in H
    end.
  repeat split; try done.
  rewrite (step_description_line _ occ raw); try done.
  - fold t. by match goal with H : should_stop_description t = _ |- _ =>
      rewrite H end.
  - fold t. by match goal with H : first_word t = t |- _ => rewrite H end.
Qed.

Lemma invalid_four_digit_line_is_appended_witness :
  let occ := mkOccupation (lit "6111") (lit "Farmer") [] in
  step (mkState [] (Some occ) [lit "Grows crops on farmland."] false)
    (lit "2015") =
    Ok (mkState [] (Some occ) [lit "Grows crops on farmland."; lit "2015"]
          false)
  ∧ step (mkState [] (Some occ) [] false) (lit " 0111 ") =
      Ok (mkState [] (Some occ) [lit "0111"] false)
  ∧ extract_occupations_from_column
      [lit "6111 Farmer"; lit "Grows crops on farmland."; lit "2015"] =
      Ok [mkOccupation (lit "6111") (lit "Farmer")
            (lit "Grows crops on farmland. 2015")].
Proof.
  cbv zeta. split; [|split; [|reflexivity]].
  - refine (proj2 (proj2 (proj2 (invalid_four_digit_line_is_appended
      [] (mkOccupation (lit "6111") (lit "Farmer") [])
      [lit "Grows crops on farmland."] (lit "2015") _ _ _))));
      reflexivity.
  - refine (proj2 (proj2 (proj2 (invalid_four_digit_line_is_appended
      [] (mkOccupation (lit "6111") (lit "Farmer") []) [] (lit " 0111 ")
      _ _ _)))); reflexivity.
Defined.

(** ** The text-cleaning pass *)

(** C4. The cleaning pass is meant to be idempotent.  Removing a "Page N"
    artifact after the whitespace runs have been collapsed leaves the two
    blanks around it side by side, and a second pass collapses them: the
    pass is not idempotent on text that holds such an artifact. *)
Theorem clean_text_twice_differs :
  let text := lit "a Page 1 b" in
  clean_text text = lit "a  b"
  ∧ clean_text (clean_text text) = lit "a b"
  ∧ clean_text (clean_text text) ≠ clean_text text.
Proof. cbv zeta. split; [reflexivity|]. split; [reflexivity|]. discriminate. Qed.

(** ** Substitution never meets an empty match *)

Section NonEmptyMatches.

Import Re.

Lemma match_star_nil cls p prev :
  match_here (Star cls :: p) prev [] = match_here p prev [].
Proof. reflexivity. Qed.

Lemma match_star_cons cls p prev c s :
  match_here (Star cls :: p) prev (c :: s) =
  if cls c then
    match match_here (Star cls :: p) (Some c) s with
    | Some n => Some (S n)
    | None => match_here p prev (c :: s)
    end
  else match_here p prev (c :: s).
Proof. reflexivity. Qed.

Lemma match_lazy_unfold cls p prev s :
  match_here (LazyStar cls :: p) prev s =
  match match_here p prev s with
  | Some n => Some n
  | None =>
      match s with
      | c :: s' =>
          if cls c then S <$> match_here (LazyStar cls :: p) (Some c) s'
          else None
      | [] => None
      end
  end.
Proof. by destruct s. Qed.

Lemma match_alt_nil p prev s : match_here (Alt [] :: p) prev s = None.
Proof. reflexivity. Qed.

Lemma match_alt_cons l alts p prev s :
  match_here (Alt (l :: alts) :: p) prev s =
  match (if Str.startswith l s
         then (fun n => length l + n) <$>
              match_here p (last_or prev l) (drop (length l) s)
         else None) with
  | Some n => Some n
  | None => match_here (Alt alts :: p) prev s
  end.
Proof. reflexivity. Qed.

Lemma consumes_nonempty p :
  consumes p = true → ∀ prev s, match_here p prev s ≠ Some 0.
Proof.
  induction p as [|a p IH]; [done|].
  destruct a as [cls|cls|cls|cls|alts| | |]; cbn [consumes]; intros Hp.
  - intros prev [|c s]; simpl; [done|].
    destruct (cls c); [|done]. by destruct (match_here p (Some c) s).
  - intros prev [|c s]; simpl; [by apply IH|].
    destruct (cls c); [|by apply IH].
    destruct (match_here p (Some c) s); [done|by apply IH].
  - intros prev s. revert prev.
    induction s as [|c s IHs]; intros prev.
    + rewrite match_star_nil. by apply IH.
    + rewrite match_star_cons. destruct (cls c); [|by apply IH].
      destruct (match_here (Star cls :: p) (Some c) s); [done|by apply IH].
  - intros prev s. revert prev.
    induction s as [|c s IHs]; intros prev; rewrite match_lazy_unfold.
    + specialize (IH Hp prev []). by destruct (match_here p prev []).
    + specialize (IH Hp prev (c :: s)).
      destruct (match_here p prev (c :: s)); [done|].
      destruct (cls c); [|done].
      by destruct (match_here (LazyStar cls :: p) (Some c) s).
  - intros prev s. induction alts as [|l alts IHa].
    + by rewrite match_alt_nil.
    + rewrite match_alt_cons.
      assert (forallb Str.truthy alts || consumes p = true) as Hrest.
      { simpl in Hp. destruct (consumes p); [by rewrite orb_true_r|].
        rewrite orb_false_r in Hp |- *. by apply andb_true_iff in Hp as [_ ?]. }
      destruct (Str.startswith l s); [|by apply IHa].
      destruct (match_here p (last_or prev l) (drop (length l) s)) as [n|]
        eqn:E; [|by apply IHa].
      simpl. intros [= Hz]. apply Nat.eq_add_0 in Hz as [Hl ->].
      destruct (consumes p) eqn:Hc; [exact (IH eq_refl _ _ E)|].
      destruct l; [|done]. by simpl in Hp.
  - intros prev s. simpl. destruct (xorb _ _); [by apply IH|done].
  - intros [c|] s; simpl; [done|by apply IH].
  - intros prev [|c [|? ?]]; simpl; [by apply IH| |done].
    destruct (Char.at_code 10 c); [by apply IH|done].
Qed.

(** None of the patterns handed to [re.sub] can match the empty string. *)
Lemma sub_patterns_nonempty p :
  p ∈ [isco_paren_re; isco_tail_re; whitespace_re; control_re; page_re;
       code_title_re] →
  ∀ prev s, match_here p prev s ≠ Some 0.
Proof.
  intros Hp. apply consumes_nonempty.
  repeat (apply elem_of_cons in Hp as [->|Hp]; [reflexivity|]).
  by apply elem_of_nil in Hp.
Qed.

End NonEmptyMatches.

(** ** The extractor returns on text whose digits are all decimal *)

Section Returns.

Variable P : ascii → bool.

Lemma forallb_lstrip_keep drop s :
  forallb P s = true → forallb P (Str.lstrip drop s) = true.
Proof.
  induction s as [|c s IH]; simpl; [done|].
  intros [Hc Hs]%andb_true_iff. destruct (drop c); [by apply IH|].
  simpl. by rewrite Hc.
Qed.

Lemma forallb_strip_keep drop s :
  forallb P s = true → forallb P (Str.strip_chars drop s) = true.
Proof.
  intros H. unfold Str.strip_chars, Str.rstrip.
  rewrite forallb_rev. apply forallb_lstrip_keep.
  rewrite forallb_rev. by apply forallb_lstrip_keep.
Qed.

Lemma split_from_keep s : ∀ w,
  forallb P w = true → forallb P s = true →
  Forall (fun x => forallb P x = true) (Str.split_from w s).
Proof.
  induction s as [|c s IH]; intros w Hw; simpl.
  - intros _. destruct w; [apply Forall_nil_2|by apply Forall_singleton].
  - intros [Hc Hs]%andb_true_iff. destruct (Char.isspace c).
    + destruct w; [by apply IH|]. apply Forall_cons; split; [done|by apply IH].
    + apply IH; [|done]. rewrite forallb_app, Hw. simpl. by rewrite Hc.
Qed.

Lemma first_word_keep l : forallb P l = true → forallb P (first_word l) = true.
Proof.
  intros H. unfold first_word, Str.split.
  pose proof (split_from_keep l [] eq_refl H) as Hall.
  destruct (Str.split_from [] l); [done|]. by apply Forall_cons in Hall as [? _].
Qed.

End Returns.

Lemma is_valid_returns o :
  digits_decimal (nco_code o) = true → ∃ b, is_valid o = Ok b.
Proof.
  unfold is_valid, and_then, Str.isdigit, digits_decimal.
  destruct o as [code ttl desc]; simpl. intros Hcode.
  destruct (populated code); [|by eauto].
  destruct (populated ttl); [|by eauto].
  destruct (populated desc); [|by eauto].
  destruct (length code =? 4); [|by eauto].
  destruct code as [|c code]; [by eauto|]. simpl in *.
  destruct (Char.isdigit c); [|by eauto]. simpl in *.
  destruct (forallb Char.isdigit code); [|by eauto].
  unfold_result. unfold int_of_char.
  apply andb_true_iff in Hcode as [-> _]. simpl. eauto.
Qed.

Lemma finalize_returns occs occ buf :
  digits_decimal (nco_code occ) = true → ∃ occs', finalize occs occ buf = Ok occs'.
Proof.
  intros H. unfold finalize. unfold_result.
  destruct (is_valid_returns (with_description occ buf) H) as [b ->]. eauto.
Qed.

Lemma finalize_open_returns st :
  decimal_candidate st → ∃ occs', finalize_open st = Ok occs'.
Proof.
  intros H. unfold finalize_open. unfold_result.
  destruct (current_occ st) as [occ|] eqn:E; [|eauto].
  destruct (description_lines st); [eauto|].
  apply finalize_returns. by apply H.
Qed.

Lemma step_returns st raw :
  decimal_candidate st → digits_decimal raw = true →
  ∃ st', step st raw = Ok st' ∧ decimal_candidate st'.
Proof.
  intros Hst Hraw.
  assert (digits_decimal (first_word (Str.strip raw)) = true) as Hfw.
  { apply first_word_keep. by apply forallb_strip_keep. }
  destruct (finalize_open_returns st Hst) as [occs Hf].
  assert (∀ occs', decimal_candidate (mkState occs' None [] true)) as Hnone1
    by (intros ? ?; discriminate).
  assert (∀ occs', decimal_candidate (mkState occs' None [] false)) as Hnone2
    by (intros ? ?; discriminate).
  assert (∀ b buf, decimal_candidate
            (mkState (occupations st) (current_occ st) buf b)) as Hsame
    by (intros ? ? ?; apply Hst).
  unfold step; cbv zeta. unfold_result.
  destruct (negb _ || _); [by eauto|].
  destruct (Re.matches _ _ && _); [by eauto|].
  destruct (is_metadata_section _).
  { unfold finalize_open in Hf. unfold_result.
    destruct (current_occ st) as [occ|] eqn:Ec; [|by eauto].
    destruct (description_lines st); [rewrite <- Ec; by eauto|].
    rewrite Hf. eauto. }
  destruct (in_metadata st && _); [by eauto|].
  destruct (is_header_line _); [by eauto|].
  destruct (is_valid_nco_code _).
  { rewrite Hf. destruct (negb _ || _); [by eauto|].
    eexists; split; [done|]. by intros occ [= <-]. }
  destruct (current_occ st) as [occ|] eqn:Ec; [|rewrite <- Ec; by eauto].
  destruct (should_stop_description _).
  { unfold finalize_open in Hf. unfold_result. rewrite Ec in Hf.
    destruct (description_lines st); [by eauto|]. rewrite Hf. eauto. }
  rewrite <- Ec. destruct (negb _ && _); eauto.
Qed.

Lemma run_returns lines : ∀ st,
  decimal_candidate st → Forall (fun l => digits_decimal l = true) lines →
  ∃ st', run st lines = Ok st' ∧ decimal_candidate st'.
Proof.
  induction lines as [|raw lines IH]; intros st Hst Hall; simpl.
  - eauto.
  - apply Forall_cons in Hall as [Hraw Hall]. unfold_result.
    destruct (step_returns st raw Hst Hraw) as (st1 & -> & Hst1).
    by apply IH.
Qed.

(** On lines whose digits are all decimal, in particular on ASCII text, the
    column extractor raises no exception. *)
Lemma extract_returns lines :
  Forall (fun l => digits_decimal l = true) lines →
  ∃ occs, extract_occupations_from_column lines = Ok occs.
Proof.
  intros Hall. unfold extract_occupations_from_column. unfold_result.
  destruct (run_returns lines initial) as (st & -> & Hst); [|done|].
  { intros ?; discriminate. }
  by apply finalize_open_returns.
Qed.

(** * Further properties *)

(** ** More on the validity gate *)

(** What a record that passes the gate looks like. *)
Lemma is_valid_true_inv o :
  is_valid o = Ok true →
  length (nco_code o) = 4 ∧ forallb Char.isdigit (nco_code o) = true
  ∧ leading_1_to_9 (nco_code o) = true
  ∧ 3 < length (title o) ∧ 20 < length (description o).
Proof.
  unfold is_valid, and_then, Str.isdigit.
  destruct o as [code ttl desc]; simpl.
  destruct (populated code); [|done].
  destruct (populated ttl); [|done].
  destruct (populated desc); [|done].
  destruct (length code =? 4) eqn:Hl; [|done]. apply Nat.eqb_eq in Hl.
  destruct code as [|c code]; [done|]. rewrite leading_1_to_9_cons. simpl.
  destruct (Char.isdigit c && forallb Char.isdigit code) eqn:Hd; [|done].
  unfold_result.
  destruct (int_of_char c) as [d|] eqn:Hi; [|done].
  rewrite (int_of_char_ge_1 c d Hi). intros [= H].
  apply andb_true_iff in H as [H ?%Nat.ltb_lt].
  apply andb_true_iff in H as [? ?%Nat.ltb_lt]. done.
Qed.

(** X1.  [is_valid] raises exactly on the records that pass every test before
    [int] and whose code starts with a digit that is not decimal; the
    exception is then [ValueError], never [IndexError]. *)
Theorem is_valid_raises_iff o e :
  is_valid o = Raise e ↔
  e = ValueError
  ∧ has_text (title o) = true ∧ has_text (description o) = true
  ∧ length (nco_code o) = 4 ∧ forallb Char.isdigit (nco_code o) = true
  ∧ ∃ c, head (nco_code o) = Some c ∧ Char.isdecimal c = false.
Proof.
  unfold is_valid, and_then, Str.isdigit.
  rewrite <- !populated_has_text.
  destruct o as [code ttl desc]; simpl. split.
  - destruct (populated code); [|done].
    destruct (populated ttl); [|done].
    destruct (populated desc); [|done].
    destruct (length code =? 4) eqn:Hl; [|done]. apply Nat.eqb_eq in Hl.
    destruct code as [|c code]; [done|]. simpl.
    destruct (Char.isdigit c && forallb Char.isdigit code) eqn:Hd; [|done].
    unfold_result. unfold int_of_char.
    destruct (Char.isdecimal c) eqn:Hc; [done|]. intros [= <-].
    repeat split; try done. by exists c.
  - intros (-> & -> & -> & Hl & Hd & c & Hh & Hc).
    rewrite (digits_populated code Hl Hd), Hl. simpl.
    destruct code as [|c' code]; [done|]. simpl in *.
    injection Hh as ->. rewrite Hd. simpl. unfold_result. unfold int_of_char.
    by rewrite Hc.
Qed.

(** X2.  A record that passes [is_valid] carries a code that [is_valid_nco_code]
    accepts, unless the code is one of the calendar years of the deny-list,
    which [is_valid] does not consult. *)
Theorem is_valid_code_accepted_or_year o :
  is_valid o = Ok true →
  is_valid_nco_code (nco_code o) = true ∨ nco_code o ∈ YEARS.
Proof.
  intros (Hl & Hd & Hlead & _)%is_valid_true_inv.
  destruct (decide (nco_code o ∈ YEARS)) as [Hy|Hy]; [by right|left].
  unfold is_valid_nco_code, Str.isdigit.
  destruct (nco_code o) as [|c code] eqn:E; [done|].
  cbn [Str.truthy andb negb orb].
  rewrite Hd, Hl. cbn [negb orb Nat.eqb].
  assert (Ascii.eqb c "0" = false) as ->.
  { rewrite leading_1_to_9_cons in Hlead. apply Ascii.eqb_neq.
    intros ->. done. }
  destruct (Str.mem (c :: code) YEARS) eqn:Hm; [|done].
  apply mem_elem_of in Hm. done.
Qed.

Lemma is_valid_code_accepted_or_year_witness :
  (is_valid_nco_code (lit "6111") = true ∨ lit "6111" ∈ YEARS)
  ∧ (is_valid_nco_code (lit "2015") = true ∨ lit "2015" ∈ YEARS).
Proof.
  split.
  - apply (is_valid_code_accepted_or_year farmer). reflexivity.
  - apply (is_valid_code_accepted_or_year
      (mkOccupation (lit "2015") (lit "Census")
         (lit "Counts the population of the country."))).
    reflexivity.
Defined.

Lemma extract_output_valid_witness : Forall valid [farmer].
Proof. apply (extract_output_valid farmer_column). reflexivity. Defined.

Lemma stop_line_is_isco08_witness :
  Re.search (Re.text "isco"
               ++ [Re.Star (Re.union (Re.set "-") Char.isspace)]
               ++ Re.text "08")
    (Str.strip (Str.lower (lit "see Isco-08 for details"))) = true.
Proof. apply stop_line_is_isco08; reflexivity. Defined.

(** ** Stripping *)

Section Strip.

Variable drop : ascii → bool.

Lemma lstrip_head s : keeps drop (head (Str.lstrip drop s)).
Proof.
  induction s as [|c s IH]; simpl; [by intros ?|].
  destruct (drop c) eqn:E; [done|]. by intros ? [= <-].
Qed.

Lemma lstrip_fixed s : keeps drop (head s) → Str.lstrip drop s = s.
Proof. destruct s as [|c s]; [done|]. intros H. simpl. by rewrite (H c). Qed.

Lemma lstrip_suffix s : ∃ p, s = p ++ Str.lstrip drop s.
Proof.
  induction s as [|c s [p IH]]; simpl; [by exists []|].
  destruct (drop c); [|by exists []].
  exists (c :: p). simpl. by f_equal.
Qed.

Lemma rstrip_prefix s : ∃ q, s = Str.rstrip drop s ++ q.
Proof.
  unfold Str.rstrip. destruct (lstrip_suffix (rev s)) as [p Hp].
  exists (rev p). rewrite <- rev_app_distr, <- Hp. by rewrite rev_involutive.
Qed.

Lemma head_rev (s : str) : head (rev s) = last s.
Proof.
  induction s as [|c s IH] using rev_ind; [done|].
  rewrite rev_app_distr, last_snoc. done.
Qed.

Lemma rstrip_last s : keeps drop (last (Str.rstrip drop s)).
Proof.
  unfold Str.rstrip. rewrite <- head_rev, rev_involutive. apply lstrip_head.
Qed.

Lemma rstrip_fixed s : keeps drop (last s) → Str.rstrip drop s = s.
Proof.
  intros H. unfold Str.rstrip. rewrite lstrip_fixed; [apply rev_involutive|].
  by rewrite head_rev.
Qed.

Lemma rstrip_head s : keeps drop (head s) → keeps drop (head (Str.rstrip drop s)).
Proof.
  intros H. destruct (rstrip_prefix s) as [q Hq].
  destruct (Str.rstrip drop s) as [|c t]; [by intros ?|].
  rewrite Hq in H. exact H.
Qed.

(** The ends of a stripped string are characters that stay. *)
Lemma strip_chars_ends s :
  keeps drop (head (Str.strip_chars drop s)) ∧ keeps drop (last (Str.strip_chars drop s)).
Proof.
  unfold Str.strip_chars. split; [|apply rstrip_last].
  apply rstrip_head, lstrip_head.
Qed.

Lemma strip_chars_fixed s :
  keeps drop (head s) → keeps drop (last s) → Str.strip_chars drop s = s.
Proof.
  intros Hh Hl. unfold Str.strip_chars. rewrite lstrip_fixed by done.
  by apply rstrip_fixed.
Qed.

Lemma strip_chars_idemp s :
  Str.strip_chars drop (Str.strip_chars drop s) = Str.strip_chars drop s.
Proof. apply strip_chars_fixed; apply strip_chars_ends. Qed.

End Strip.

Lemma strip_idemp s : Str.strip (Str.strip s) = Str.strip s.
Proof. apply strip_chars_idemp. Qed.

(** ** Lines that do not matter *)

Lemma step_strip st raw : step st (Str.strip raw) = step st raw.
Proof. unfold step. by rewrite strip_idemp. Qed.

Lemma run_strip lines : ∀ st, run st (Str.strip <$> lines) = run st lines.
Proof.
  induction lines as [|raw lines IH]; intros st; simpl; [done|].
  rewrite step_strip. unfold_result. destruct (step st raw); [apply IH|done].
Qed.

(** X5.  The extractor sees each line through [strip]: white space around the
    lines of a column does not change what is extracted. *)
Theorem extract_ignores_surrounding_whitespace lines :
  extract_occupations_from_column (Str.strip <$> lines)
  = extract_occupations_from_column lines.
Proof. unfold extract_occupations_from_column. by rewrite run_strip. Qed.

Lemma step_passed_over st raw :
  passed_over (Str.strip raw) = true → step st raw = Ok st.
Proof.
  unfold passed_over, is_noise, step; cbv zeta.
  destruct (negb _ || _); [done|]. cbn [orb].
  destruct (Re.matches _ _ && _); [done|]. cbn [orb].
  destruct (is_metadata_section _); [done|].
  destruct (is_header_line _); [|done].
  destruct (is_valid_nco_code _); [done|]. intros _.
  rewrite andb_true_r. destruct st as [? ? ? []]; done.
Qed.

Lemma run_passed_over lines : ∀ st,
  run st (filter (fun raw => passed_over (Str.strip raw) = false) lines)
  = run st lines.
Proof.
  induction lines as [|raw lines IH]; intros st; [done|].
  rewrite filter_cons. destruct (decide _) as [Hk|Hs]; simpl.
  - unfold_result. destruct (step st raw); [apply IH|done].
  - apply not_false_iff_true in Hs. rewrite (step_passed_over st raw Hs).
    apply IH.
Qed.

(** X6.  Blank lines, one-character lines, page numbers of up to three digits
    and structural headers that are neither metadata nor code lines can be
    removed from a column, or inserted into it, without any effect on the
    records extracted. *)
Theorem extract_ignores_passed_over_lines lines :
  extract_occupations_from_column
    (filter (fun raw => passed_over (Str.strip raw) = false) lines)
  = extract_occupations_from_column lines.
Proof. unfold extract_occupations_from_column. by rewrite run_passed_over. Qed.

(** ** The assembler as a transition system *)

Lemma step_transition st raw st' :
  step st raw = Ok st' → transition st (Str.strip raw) st'.
Proof.
  unfold step; cbv zeta. unfold_result.
  destruct (negb _ || _) eqn:Hn1; [intros [= <-]; constructor|].
  destruct (Re.matches _ _ && _) eqn:Hn2; [intros [= <-]; constructor|].
  assert (is_noise (Str.strip raw) = false) as Hn.
  { unfold is_noise. by rewrite Hn1, Hn2. }
  destruct (is_metadata_section _) eqn:Hm.
  { destruct (current_occ st) as [occ|] eqn:Hc.
    - destruct (description_lines st) as [|x buf] eqn:Hb.
      + intros [= <-]. rewrite <- Hc, <- Hb. apply tr_metadata_idle; eauto.
      + destruct (finalize _ _ _) as [occs'|] eqn:Hf; [|done].
        intros [= <-]. apply tr_close; [by rewrite Hc|].
        unfold finalize_open. by rewrite Hc, Hb.
    - intros [= <-]. rewrite <- Hc. apply tr_metadata_idle; eauto. }
  destruct (in_metadata st && _) eqn:Hflag; [intros [= <-]; constructor|].
  destruct (is_header_line _) eqn:Hh; [intros [= <-]; apply tr_unflag|].
  destruct (is_valid_nco_code _) eqn:Hcode.
  { destruct (finalize_open st) as [occs'|] eqn:Hf; [|done].
    assert (∀ s, s = mkState occs' (fresh_candidate (Str.strip raw)) [] false
                 → transition st (Str.strip raw) s) as Hstart.
    { intros s ->. by apply tr_start. }
    unfold fresh_candidate in Hstart.
    destruct (negb (Str.truthy (clean_title _)) || _);
      intros [= <-]; by apply Hstart. }
  rewrite andb_true_r in Hflag.
  destruct (current_occ st) as [occ|] eqn:Hc;
    [|intros [= <-]; rewrite <- Hc; apply tr_unflag].
  destruct (should_stop_description _) eqn:Hs.
  { assert (finalize_open st =
            match description_lines st with
            | [] => mret (occupations st)
            | _ :: _ => finalize (occupations st) occ (description_lines st)
            end) as Hfo.
    { unfold finalize_open. rewrite Hc. by destruct (description_lines st). }
    unfold_result. rewrite <- Hfo.
    destruct (finalize_open st) as [occs'|] eqn:Hf; [|done].
    intros [= <-]. apply tr_close; [by rewrite Hc|done]. }
  cbn [negb andb]. intros [= <-]. by apply tr_append.
Qed.

Lemma finalize_open_None st :
  current_occ st = None → finalize_open st = Ok (occupations st).
Proof. unfold finalize_open. by intros ->. Qed.

Lemma fresh_candidate_open l occ :
  is_valid_nco_code (first_word l) = true →
  fresh_candidate l = Some occ → open_candidate occ.
Proof.
  unfold fresh_candidate; cbv zeta. intros Hc.
  destruct (negb _ || _) eqn:E; [done|]. intros [= <-].
  apply orb_false_iff in E as [_ Hlen]. apply Nat.ltb_ge in Hlen.
  repeat split; simpl; try done.
  unfold clean_title; cbv zeta. apply strip_chars_idemp.
Qed.

Lemma fresh_candidate_eq l occ :
  fresh_candidate l = Some occ →
  occ = mkOccupation (first_word l) (clean_title l) [].
Proof.
  unfold fresh_candidate; cbv zeta. destruct (negb _ || _); [done|].
  by intros [= <-].
Qed.

Lemma transition_well_formed st l st' :
  Str.strip l = l → well_formed st → transition st l st' → well_formed st'.
Proof.
  intros Hl (Hflag & Hnone & Hbuf & Hcur) Ht.
  destruct Ht as [|Hm Hidle| |occs' Hopen Hf|occs' Hc Hf
                  |occ Hc Hfl Hn Hm Hh Hv Hs];
    [done|split; [|split; [|split]]; simpl; try done..].
  - intros _. destruct Hidle as [?|?]; eauto.
  - intros occ. by apply fresh_candidate_open.
  - apply Forall_app; split; [done|]. apply Forall_singleton.
    repeat split; try done.
    unfold is_noise in Hn. apply orb_false_iff in Hn as [Hn _].
    apply orb_false_iff in Hn as [_ Hn]. by apply Nat.ltb_ge in Hn.
  - intros ? [= <-]. by apply Hcur.
Qed.

Lemma run_well_formed lines : ∀ st st',
  well_formed st → run st lines = Ok st' → well_formed st'.
Proof.
  induction lines as [|raw lines IH]; intros st st' Hst; simpl.
  - by intros [= <-].
  - unfold_result. destruct (step st raw) as [st1|] eqn:Hs; [|done].
    apply IH. eapply transition_well_formed; [|done|by apply step_transition].
    apply strip_idemp.
Qed.

(** X7.  Every state the loop reaches keeps four invariants: while the metadata
    flag is set the buffer is empty; the buffer is empty when no candidate
    is open; the buffer holds stripped lines of at least 2 characters that
    are neither metadata, headers, code lines nor stop lines; and the open
    candidate has an accepted code, a trimmed title of at least 3
    characters and no description yet. *)
Theorem reachable_states_well_formed lines st :
  run initial lines = Ok st → well_formed st.
Proof.
  apply run_well_formed. by split; [|split; [|split]].
Qed.

Lemma reachable_states_well_formed_witness :
  well_formed
    (mkState [] (Some (mkOccupation (lit "6111") (lit "Farmer") []))
       [lit "Grows crops on farmland."] false).
Proof.
  apply (reachable_states_well_formed
           [lit "6111 Farmer"; lit "  Grows crops on farmland. "]).
  reflexivity.
Defined.

(** ** Where the records come from *)

Lemma assembled_from_mono seen more o :
  assembled_from seen o → assembled_from (seen ++ more) o.
Proof.
  intros (raw & buf & Hin & Hne & Hsub & ->). exists raw, buf.
  split; [apply elem_of_app; by left|]. split; [done|]. split; [|done].
  rewrite fmap_app. by apply sublist_inserts_r.
Qed.

Lemma finalize_open_provenance seen st occs' :
  provenance seen st → finalize_open st = Ok occs' →
  Forall (assembled_from seen) occs'.
Proof.
  intros (Hocc & Hcur & Hbuf) [->|(occ & Hc & Hne & _ & ->)]%finalize_open_cases;
    [done|].
  apply Forall_app; split; [done|]. apply Forall_singleton.
  destruct (Hcur occ Hc) as (raw & Hin & ->).
  by exists raw, (description_lines st).
Qed.

Lemma transition_provenance seen st raw st' :
  provenance seen st → transition st (Str.strip raw) st' →
  provenance (seen ++ [raw]) st'.
Proof.
  intros Hp Ht.
  assert (Forall (assembled_from (seen ++ [raw])) (occupations st)) as Hocc.
  { destruct Hp as (Hocc & _). eapply Forall_impl; [exact Hocc|].
    intros o. apply assembled_from_mono. }
  assert (∀ occ, current_occ st = Some occ →
            ∃ raw0, raw0 ∈ seen ++ [raw]
              ∧ occ = mkOccupation (first_word (Str.strip raw0))
                        (clean_title (Str.strip raw0)) []) as Hcur.
  { destruct Hp as (_ & Hcur & _). intros occ (raw0 & Hin & ->)%Hcur.
    exists raw0. split; [apply elem_of_app; by left|done]. }
  assert (description_lines st `sublist_of` Str.strip <$> (seen ++ [raw]))
    as Hbuf.
  { destruct Hp as (_ & _ & Hbuf). rewrite fmap_app.
    by apply sublist_inserts_r. }
  assert (∀ occs', finalize_open st = Ok occs' →
            Forall (assembled_from (seen ++ [raw])) occs') as Hfin.
  { intros occs' Hf. eapply Forall_impl;
      [exact (finalize_open_provenance seen st occs' Hp Hf)|].
    intros o. apply assembled_from_mono. }
  destruct Ht as [|Hm Hidle| |occs' Hopen Hf|occs' Hc Hf
                  |occ Hc Hfl Hn Hm Hh Hv Hs];
    (split; [|split]); simpl; try done; eauto using sublist_nil_l.
  - intros occ ->%fresh_candidate_eq. exists raw.
    split; [apply elem_of_app; right; by apply list_elem_of_singleton|done].
  - intros ? [= <-]. by apply Hcur.
  - destruct Hp as (_ & _ & Hb). rewrite fmap_app. by apply sublist_app.
Qed.

Lemma run_provenance lines : ∀ seen st st',
  provenance seen st → run st lines = Ok st' → provenance (seen ++ lines) st'.
Proof.
  induction lines as [|raw lines IH]; intros seen st st' Hp; simpl.
  - intros [= <-]. by rewrite app_nil_r.
  - unfold_result. destruct (step st raw) as [st1|] eqn:Hs; [|done].
    intros Hr. rewrite cons_middle, app_assoc. eapply IH; [|exact Hr].
    by eapply transition_provenance, step_transition.
Qed.

Lemma extract_assembled lines occs :
  extract_occupations_from_column lines = Ok occs →
  Forall (assembled_from lines) occs.
Proof.
  unfold extract_occupations_from_column. unfold_result.
  destruct (run initial lines) as [st|] eqn:Hr; [|done].
  apply (run_provenance lines [] initial st) in Hr.
  - by apply finalize_open_provenance.
  - split; [apply Forall_nil_2|]. split; [done|]. simpl. apply sublist_nil_l.
Qed.

(** X8.  Every record a column yields is assembled from the lines of that
    column: its code is the first token of one of them, its title is the
    cleaned rest of that line, and its description joins, with single
    blanks, a non-empty subsequence of the stripped lines.  No code, title
    or description text is made up. *)
Theorem extract_provenance lines occs :
  extract_occupations_from_column lines = Ok occs →
  ∀ o, o ∈ occs →
    ∃ raw buf,
      raw ∈ lines ∧ buf ≠ [] ∧ buf `sublist_of` (Str.strip <$> lines)
      ∧ nco_code o = first_word (Str.strip raw)
      ∧ title o = clean_title (Str.strip raw)
      ∧ description o = Str.strip (Str.join (lit " ") buf).
Proof.
  intros Hall%extract_assembled o Ho.
  rewrite Forall_forall in Hall.
  destruct (Hall o Ho) as (raw & buf & ? & ? & ? & ->). by exists raw, buf.
Qed.

Lemma extract_provenance_witness :
  ∃ raw buf,
    raw ∈ farmer_column ∧ buf ≠ []
    ∧ buf `sublist_of` (Str.strip <$> farmer_column)
    ∧ nco_code farmer = first_word (Str.strip raw)
    ∧ title farmer = clean_title (Str.strip raw)
    ∧ description farmer = Str.strip (Str.join (lit " ") buf).
Proof.
  apply (extract_provenance farmer_column [farmer]); [reflexivity|].
  apply list_elem_of_singleton. reflexivity.
Defined.

(** X9.  Every record a column yields is trimmed: its description has no white
    space at either end and more than 20 characters, its title has none of
    the characters [;,. ] at either end and more than 3 characters. *)
Theorem extract_output_trimmed lines occs :
  extract_occupations_from_column lines = Ok occs →
  ∀ o, o ∈ occs →
    Str.strip (description o) = description o
    ∧ 20 < length (description o)
    ∧ Str.strip_chars (Re.set ";,. ") (title o) = title o
    ∧ 3 < length (title o).
Proof.
  intros Hex o Ho.
  assert (valid o) as Hv.
  { unfold extract_occupations_from_column in Hex. unfold_result.
    destruct (run initial lines) as [st|] eqn:Hr; [|done].
    apply run_valid in Hr; [|by apply Forall_nil].
    apply finalize_open_cases in Hex as [->|(occ & _ & _ & Hv & ->)].
    - rewrite Forall_forall in Hr. by apply Hr.
    - apply elem_of_app in Ho as [Ho|Ho%list_elem_of_singleton];
        [|by subst o].
      rewrite Forall_forall in Hr. by apply Hr. }
  apply is_valid_true_inv in Hv as (_ & _ & _ & Ht & Hd).
  apply extract_assembled in Hex. rewrite Forall_forall in Hex.
  destruct (Hex o Ho) as (raw & buf & _ & _ & _ & ->). simpl in *.
  split; [apply strip_idemp|]. split; [done|].
  split; [apply strip_chars_idemp|done].
Qed.

Lemma extract_output_trimmed_witness :
  Str.strip (description farmer) = description farmer
  ∧ 20 < length (description farmer)
  ∧ Str.strip_chars (Re.set ";,. ") (title farmer) = title farmer
  ∧ 3 < length (title farmer).
Proof.
  apply (extract_output_trimmed farmer_column [farmer]); [reflexivity|].
  apply list_elem_of_singleton. reflexivity.
Defined.

(** ** How many records, and in which order *)

Lemma finalize_open_length st occs' :
  finalize_open st = Ok occs' →
  length (occupations st) ≤ length occs' ≤ open_count st.
Proof.
  unfold open_count.
  intros [->|(occ & Hc & _ & _ & ->)]%finalize_open_cases.
  - lia.
  - rewrite Hc, length_app. simpl. lia.
Qed.

Lemma transition_count st raw st' :
  transition st (Str.strip raw) st' →
  open_count st' ≤ open_count st + length (code_lines [raw]).
Proof.
  unfold code_lines. rewrite filter_cons, filter_nil.
  intros [|Hm Hidle| |occs' Hopen Hf|occs' Hc Hf|occ Hc Hfl Hn Hm Hh Hv Hs];
    unfold open_count in *; simpl; try lia.
  - apply finalize_open_length in Hf. unfold open_count in Hf. lia.
  - apply finalize_open_length in Hf. unfold open_count in Hf.
    rewrite decide_True by done. simpl.
    destruct (fresh_candidate _); lia.
  - rewrite Hc. lia.
Qed.

Lemma run_count lines : ∀ st st',
  run st lines = Ok st' →
  open_count st' ≤ open_count st + length (code_lines lines).
Proof.
  induction lines as [|raw lines IH]; intros st st'; simpl.
  - intros [= <-]. lia.
  - unfold_result. destruct (step st raw) as [st1|] eqn:Hs; [|done].
    intros Hr%IH. apply step_transition, transition_count in Hs.
    change (raw :: lines) with ([raw] ++ lines).
    unfold code_lines in *. rewrite filter_app, length_app. lia.
Qed.

(** X10.  A column yields at most one record per line that starts with a valid
    code. *)
Theorem extract_at_most_one_per_code_line lines occs :
  extract_occupations_from_column lines = Ok occs →
  length occs ≤ length (code_lines lines).
Proof.
  unfold extract_occupations_from_column. unfold_result.
  destruct (run initial lines) as [st|] eqn:Hr; [|done].
  apply run_count in Hr. intros Hf%finalize_open_length.
  unfold open_count in Hr at 2. simpl in Hr. lia.
Qed.

Lemma extract_at_most_one_per_code_line_witness :
  length [farmer] ≤ length (code_lines farmer_column).
Proof.
  apply (extract_at_most_one_per_code_line farmer_column [farmer]).
  reflexivity.
Defined.

Lemma transition_prefix st l st' :
  transition st l st' → occupations st `prefix_of` occupations st'.
Proof.
  intros [|Hm Hidle| |occs' Hopen Hf|occs' Hc Hf|occ Hc Hfl Hn Hm Hh Hv Hs];
    simpl; try done.
  all: apply finalize_open_cases in Hf as [->|(? & _ & _ & _ & ->)];
    [done|by apply prefix_app_r].
Qed.

Lemma run_prefix lines : ∀ st st',
  run st lines = Ok st' → occupations st `prefix_of` occupations st'.
Proof.
  induction lines as [|raw lines IH]; intros st st'; simpl.
  - by intros [= <-].
  - unfold_result. destruct (step st raw) as [st1|] eqn:Hs; [|done].
    intros Hr%IH. etrans; [|exact Hr].
    by eapply transition_prefix, step_transition.
Qed.

Lemma run_app l1 : ∀ l2 st,
  run st (l1 ++ l2) = st1 ← run st l1; run st1 l2.
Proof.
  induction l1 as [|raw l1 IH]; intros l2 st; simpl; [done|].
  unfold_result. destruct (step st raw); [apply IH|done].
Qed.

(** X11.  Going on with a column can change at most the last record extracted so
    far: all records but the last that the lines [l1] yield are, in the same
    order, at the front of what [l1 ++ l2] yields. *)
Theorem extract_keeps_earlier_records l1 l2 occs1 occs :
  extract_occupations_from_column l1 = Ok occs1 →
  extract_occupations_from_column (l1 ++ l2) = Ok occs →
  take (length occs1 - 1) occs1 `prefix_of` occs.
Proof.
  unfold extract_occupations_from_column. rewrite run_app. unfold_result.
  destruct (run initial l1) as [st1|] eqn:H1; [|done].
  destruct (run st1 l2) as [st2|] eqn:H2; [|done].
  intros Hf1 Hf2. apply run_prefix in H2.
  assert (occupations st1 `prefix_of` occs) as Hpre.
  { etrans; [exact H2|].
    apply finalize_open_cases in Hf2 as [->|(? & _ & _ & _ & ->)];
      [done|by apply prefix_app_r]. }
  etrans; [|exact Hpre].
  apply finalize_open_cases in Hf1 as [->|(? & _ & _ & _ & ->)].
  - apply prefix_take.
  - rewrite length_app. simpl.
    replace (length (occupations st1) + 1 - 1) with (length (occupations st1))
      by lia.
    by rewrite take_app_length.
Qed.

Lemma extract_keeps_earlier_records_witness :
  take (length [farmer] - 1) [farmer] `prefix_of` [farmer]
  ∧ take
      (length
         [farmer;
          mkOccupation (lit "6112") (lit "Gardener")
            (lit "Tends gardens and parks all year.")] - 1)
      [farmer;
       mkOccupation (lit "6112") (lit "Gardener")
         (lit "Tends gardens and parks all year.")]
    `prefix_of`
      [farmer;
       mkOccupation (lit "6112") (lit "Gardener")
         (lit "Tends gardens and parks all year. In any weather.")].
Proof.
  split.
  - apply (extract_keeps_earlier_records (take 2 farmer_column)
             (drop 2 farmer_column)); reflexivity.
  - apply (extract_keeps_earlier_records
             (take 3 farmer_column
                ++ [lit "Tends gardens and parks all year."])
             [lit "In any weather."]); reflexivity.
Defined.

(** ** More on de-duplication *)

Section DeduplicateMore.

Implicit Types (occs rest unique : list Occupation) (seen : gset str).

Lemma deduplicate_from_acc rest : ∀ seen unique,
  deduplicate_from seen unique rest = unique ++ deduplicate_from seen [] rest.
Proof.
  induction rest as [|o rest IH]; intros seen unique; simpl.
  { by rewrite app_nil_r. }
  destruct (decide (nco_code o ∉ seen)); [|apply IH].
  rewrite (IH _ (unique ++ [o])), (IH _ [o]). by rewrite <- app_assoc.
Qed.

Lemma deduplicate_from_app l1 : ∀ l2 seen unique,
  deduplicate_from seen unique (l1 ++ l2) =
  deduplicate_from (seen ∪ list_to_set (nco_code <$> l1))
    (deduplicate_from seen unique l1) l2.
Proof.
  induction l1 as [|o l1 IH]; intros l2 seen unique; simpl.
  { f_equal. set_solver. }
  destruct (decide (nco_code o ∉ seen)) as [Hnew|Hold]; rewrite IH; f_equal.
  - set_solver.
  - apply dec_stable in Hold. set_solver.
Qed.

Lemma deduplicate_from_filter rest : ∀ seen (extra : gset str),
  deduplicate_from (seen ∪ extra) [] rest =
  filter (fun o => nco_code o ∉ extra) (deduplicate_from seen [] rest).
Proof.
  induction rest as [|o rest IH]; intros seen extra; simpl; [done|].
  destruct (decide (nco_code o ∉ seen)) as [Hs|Hs];
    destruct (decide (nco_code o ∉ seen ∪ extra)) as [Hse|Hse].
  - rewrite (deduplicate_from_acc rest _ [o]),
      (deduplicate_from_acc rest ({[nco_code o]} ∪ seen) [o]).
    simpl. rewrite filter_cons, decide_True by set_solver. f_equal.
    rewrite <- IH. f_equal. set_solver.
  - rewrite (deduplicate_from_acc rest ({[nco_code o]} ∪ seen) [o]).
    simpl. rewrite filter_cons, decide_False by set_solver.
    rewrite <- IH.
    assert (seen ∪ extra = {[nco_code o]} ∪ seen ∪ extra) as <-; [|done].
    apply dec_stable in Hse. set_solver.
  - apply dec_stable in Hs. set_solver.
  - apply IH.
Qed.

(** X12.  De-duplicating two batches in a row is de-duplicating the first and
    then adding, from the de-duplicated second, the records whose code the
    first batch does not have. *)
Theorem deduplicate_app l1 l2 :
  deduplicate (l1 ++ l2) =
  deduplicate l1
    ++ filter (fun o => nco_code o ∉ nco_code <$> l1) (deduplicate l2).
Proof.
  unfold deduplicate.
  rewrite deduplicate_from_app, deduplicate_from_acc. f_equal.
  rewrite (deduplicate_from_filter l2 ∅ (list_to_set (nco_code <$> l1))).
  apply list_filter_iff. intros o. by rewrite elem_of_list_to_set.
Qed.

Lemma deduplicate_from_fresh rest : ∀ seen unique,
  NoDup (nco_code <$> rest) → (∀ o, o ∈ rest → nco_code o ∉ seen) →
  deduplicate_from seen unique rest = unique ++ rest.
Proof.
  induction rest as [|o rest IH]; intros seen unique Hnd Hfresh; simpl.
  { by rewrite app_nil_r. }
  rewrite fmap_cons in Hnd. apply NoDup_cons in Hnd as [Hhd Hnd].
  rewrite decide_True by (apply Hfresh; left).
  rewrite IH, <- app_assoc; [done|done|].
  intros o' Ho'. rewrite elem_of_union, elem_of_singleton.
  intros [Heq|Hin].
  - apply Hhd. rewrite <- Heq. by apply list_elem_of_fmap_2.
  - apply (Hfresh o'); [by right|done].
Qed.

Lemma deduplicate_codes_NoDup occs : NoDup (nco_code <$> deduplicate occs).
Proof.
  apply deduplicate_from_NoDup; [apply NoDup_nil_2|].
  intros c. simpl. by rewrite elem_of_nil.
Qed.

(** X13.  [deduplicate] changes nothing exactly when the codes are already
    pairwise distinct. *)
Theorem deduplicate_fixed_iff occs :
  deduplicate occs = occs ↔ NoDup (nco_code <$> occs).
Proof.
  split.
  - intros <-. apply deduplicate_codes_NoDup.
  - intros Hnd. unfold deduplicate.
    rewrite deduplicate_from_fresh; [done|done|]. intros o _. set_solver.
Qed.

(** X14.  De-duplicating twice is de-duplicating once. *)
Theorem deduplicate_idemp occs :
  deduplicate (deduplicate occs) = deduplicate occs.
Proof.
  unfold deduplicate at 1.
  rewrite deduplicate_from_fresh; [done|apply deduplicate_codes_NoDup|].
  intros o _. set_solver.
Qed.

Lemma deduplicate_from_codes rest : ∀ seen unique c,
  c ∈ nco_code <$> deduplicate_from seen unique rest ↔
  c ∈ nco_code <$> unique ∨ ((c ∉ seen) ∧ c ∈ nco_code <$> rest).
Proof.
  induction rest as [|o rest IH]; intros seen unique c; simpl.
  { rewrite elem_of_nil. tauto. }
  rewrite elem_of_cons.
  destruct (decide (nco_code o ∉ seen)) as [Hs|Hs]; rewrite IH.
  - rewrite fmap_app, elem_of_app, fmap_cons, fmap_nil,
      list_elem_of_singleton, elem_of_union, elem_of_singleton.
    destruct (decide (c = nco_code o)) as [->|]; tauto.
  - apply dec_stable in Hs.
    destruct (decide (c = nco_code o)) as [->|]; tauto.
Qed.

(** X15.  No code is lost and none is added: a code occurs in the result exactly
    when it occurs in the input. *)
Theorem deduplicate_same_codes occs c :
  c ∈ nco_code <$> deduplicate occs ↔ c ∈ nco_code <$> occs.
Proof.
  unfold deduplicate. rewrite deduplicate_from_codes.
  rewrite fmap_nil, elem_of_nil. set_solver.
Qed.

End DeduplicateMore.

(** ** What the cleaning pass guarantees *)

Section Substitution.

Import Re.

Lemma sub_from_delete_keep (P : ascii → bool) p s : ∀ prev skip,
  forallb P s = true → forallb P (sub_from p [] prev s skip) = true.
Proof.
  induction s as [|c s IH]; intros prev skip; simpl.
  - intros _. destruct skip; [|done]. by destruct (match_here p prev []).
  - intros [Hc Hs]%andb_true_iff. destruct skip as [|k]; [|by apply IH].
    destruct (match_here p prev (c :: s)) as [[|n]|]; simpl;
      rewrite ?Hc; by apply IH.
Qed.

Lemma sub_delete_keep (P : ascii → bool) p s :
  forallb P s = true → forallb P (sub p [] s) = true.
Proof. apply sub_from_delete_keep. Qed.

Lemma match_whitespace prev c s :
  match_here whitespace_re prev (c :: s) =
  if Char.isspace c then S <$> match_here [Star Char.isspace] (Some c) s
  else None.
Proof. reflexivity. Qed.

Lemma match_star_only_Some cls s : ∀ prev,
  is_Some (match_here [Star cls] prev s).
Proof.
  induction s as [|c s IH]; intros prev; [by eexists|].
  rewrite match_star_cons. destruct (cls c); [|by eexists].
  destruct (IH (Some c)) as [n ->]. by eexists.
Qed.

Lemma collapse_from_blanks s : ∀ prev skip,
  forallb (fun c => negb (Char.isspace c) || Ascii.eqb c " ")
    (sub_from whitespace_re (lit " ") prev s skip) = true.
Proof.
  induction s as [|c s IH]; intros prev skip.
  - simpl. destruct skip; done.
  - cbn [sub_from]. destruct skip as [|k]; [|apply IH].
    rewrite match_whitespace. destruct (Char.isspace c) eqn:Hc.
    + destruct (match_star_only_Some Char.isspace s (Some c)) as [n ->].
      simpl. apply IH.
    + simpl. rewrite Hc. simpl. apply IH.
Qed.

Lemma sub_control_filter s : ∀ prev,
  sub_from control_re [] prev s 0 =
  List.filter (fun c => negb (Char.iscontrol c)) s.
Proof.
  induction s as [|c s IH]; intros prev; [done|].
  cbn [sub_from control_re match_here List.filter].
  destruct (Char.iscontrol c) eqn:Hc; simpl; [apply IH|].
  f_equal. apply IH.
Qed.

Lemma sub_from_no_match p repl s : ∀ prev,
  search_from p prev s = false → sub_from p repl prev s 0 = s.
Proof.
  induction s as [|c s IH]; intros prev; simpl.
  - by destruct (match_here p prev []).
  - destruct (match_here p prev (c :: s)); [done|]. intros H. f_equal.
    by apply IH.
Qed.

Lemma collapse_single_spaced s : ∀ prev,
  single_spaced s = true → sub_from whitespace_re (lit " ") prev s 0 = s.
Proof.
  induction s as [|c s IH]; intros prev; [done|].
  cbn [single_spaced sub_from]. rewrite match_whitespace.
  destruct (Char.isspace c) eqn:Hc.
  - intros [[Hb Hnext]%andb_true_iff Hs]%andb_true_iff.
    apply Ascii.eqb_eq in Hb as ->.
    destruct s as [|c' s].
    + reflexivity.
    + rewrite match_star_cons.
      apply negb_true_iff in Hnext. rewrite Hnext.
      cbn [match_here fmap option_fmap option_map].
      by rewrite (IH (Some " "%char) Hs).
  - intros Hs. cbn [fmap option_fmap option_map]. f_equal. by apply IH.
Qed.

End Substitution.

(** X16.  Whatever text goes in, the cleaning pass returns text without control
    characters, whose only white space is the blank (no tab, no line break)
    and which has no white space at either end. *)
Theorem clean_text_output_clean text :
  forallb clean_char (clean_text text) = true
  ∧ Str.strip (clean_text text) = clean_text text.
Proof.
  split; [|apply strip_idemp].
  unfold clean_text; cbv zeta. apply forallb_strip_keep.
  do 2 apply sub_delete_keep. unfold Re.sub.
  rewrite sub_control_filter.
  set (collapsed := Re.sub_from whitespace_re (lit " ") None text 0).
  assert (forallb (fun c => negb (Char.isspace c) || Ascii.eqb c " ")
            collapsed = true) as Hb by apply collapse_from_blanks.
  clearbody collapsed. induction collapsed as [|c s IH]; [done|].
  simpl in Hb. apply andb_true_iff in Hb as [Hc Hs]. simpl.
  destruct (Char.iscontrol c) eqn:Hk; simpl; [by apply IH|].
  unfold clean_char at 1. rewrite Hk, Hc. by apply IH.
Qed.

(** X17.  The cleaning pass leaves tidy text as it is: text of clean characters
    in which every run of white space is a single blank, without white
    space at either end and without a "Page N" or "Code NNNN Title"
    artifact. *)
Theorem clean_text_tidy_fixed text :
  tidy text = true → clean_text text = text.
Proof.
  unfold tidy. rewrite !andb_true_iff, !negb_true_iff.
  intros ((((Hc & Hs) & Hstrip) & Hp) & Hct).
  unfold clean_text, Re.sub; cbv zeta.
  rewrite collapse_single_spaced by done.
  rewrite sub_control_filter.
  assert (List.filter (fun c => negb (Char.iscontrol c)) text = text) as ->.
  { clear -Hc. induction text as [|c s IH]; [done|].
    simpl in Hc. apply andb_true_iff in Hc as [Hc Hs].
    unfold clean_char in Hc. apply andb_true_iff in Hc as [Hc _].
    simpl. rewrite Hc. f_equal. by apply IH. }
  rewrite (sub_from_no_match page_re) by done.
  rewrite (sub_from_no_match code_title_re) by done.
  by apply eqb_eq.
Qed.

Lemma clean_text_tidy_fixed_witness :
  clean_text (lit "Grows crops, 2 per year.") = lit "Grows crops, 2 per year.".
Proof. apply clean_text_tidy_fixed. reflexivity. Defined.

(** ** Titles never mention ISCO *)

Section TitleCleaning.

Import Re.

Lemma split_from_nonspace s : ∀ w,
  forallb (fun c => negb (Char.isspace c)) w = true →
  Forall (fun x => forallb (fun c => negb (Char.isspace c)) x = true)
    (Str.split_from w s).
Proof.
  induction s as [|c s IH]; intros w Hw; simpl.
  - destruct w; [apply Forall_nil_2|by apply Forall_singleton].
  - destruct (Char.isspace c) eqn:Hc.
    + destruct w; [by apply IH|]. apply Forall_cons; split; [done|by apply IH].
    + apply IH. rewrite forallb_app, Hw. simpl. by rewrite Hc.
Qed.

Lemma nonspace_dot c : negb (Char.isspace c) = true → dot c = true.
Proof. by destruct c as [[] [] [] [] [] [] [] []]. Qed.

Lemma join_blank_dot words :
  Forall (fun x => forallb (fun c => negb (Char.isspace c)) x = true) words →
  forallb dot (Str.join (lit " ") words) = true.
Proof.
  induction 1 as [|w words Hw _ IH]; [done|].
  assert (forallb dot w = true) as Hd.
  { apply forallb_forall. intros c Hc. apply nonspace_dot.
    rewrite forallb_forall in Hw. by apply Hw. }
  destruct words as [|w' words]; [done|].
  change (Str.join (lit " ") (w :: w' :: words))
    with (w ++ lit " " ++ Str.join (lit " ") (w' :: words)).
  rewrite !forallb_app, Hd, IH. done.
Qed.

Lemma title_parts_dot line :
  forallb dot (Str.strip (Str.join (lit " ") (tail (Str.split line)))) = true.
Proof.
  apply forallb_strip_keep, join_blank_dot. unfold Str.split.
  pose proof (split_from_nonspace line [] eq_refl) as H.
  destruct (Str.split_from [] line); [done|]. by apply Forall_cons in H as [_ ?].
Qed.

Lemma match_rest_of_line s : ∀ prev,
  forallb dot s = true → match_here [Star dot; Eos] prev s = Some (length s).
Proof.
  induction s as [|c s IH]; intros prev; [done|]. simpl forallb.
  intros [Hc Hs]%andb_true_iff.
  rewrite match_star_cons, Hc, (IH (Some c) Hs). done.
Qed.

Lemma match_itext_line w : ∀ prev s,
  forallb dot s = true →
  match_here (map ichr w ++ [Star dot; Eos]) prev s =
  if Str.startswith (Str.lower w) (Str.lower s) then Some (length s)
  else None.
Proof.
  induction w as [|k w IH]; intros prev s Hs.
  { simpl. by apply match_rest_of_line. }
  destruct s as [|c s]; [done|].
  simpl in Hs. apply andb_true_iff in Hs as [_ Hs].
  cbn [map app ichr match_here Str.lower Str.startswith].
  rewrite (Ascii.eqb_sym (Char.lower c) (Char.lower k)).
  destruct (Ascii.eqb (Char.lower k) (Char.lower c)); [|done].
  fold (Str.lower w). fold (Str.lower s).
  rewrite (IH (Some c) s Hs). cbn [andb].
  by destruct (Str.startswith (Str.lower w) (Str.lower s)).
Qed.

Lemma match_isco_rest prev s :
  forallb dot s = true →
  match_here (itext "ISCO" ++ [Star dot; Eos]) prev s =
  if starts_isco s then Some (length s) else None.
Proof. apply (match_itext_line (lit "ISCO")). Qed.

Lemma match_isco_tail s : ∀ prev,
  forallb dot s = true →
  match match_here isco_tail_re prev s with
  | Some n => n = length s
  | None => starts_isco s = false
  end.
Proof.
  unfold isco_tail_re. cbn [app].
  induction s as [|c s IH]; intros prev Hs.
  - rewrite match_star_nil, (match_isco_rest prev [] Hs). done.
  - rewrite match_star_cons.
    pose proof (match_isco_rest prev (c :: s) Hs) as Hrest.
    assert (match match_here (itext "ISCO" ++ [Star dot; Eos]) prev (c :: s)
            with
            | Some n => n = length (c :: s)
            | None => starts_isco (c :: s) = false
            end) as Hhere.
    { rewrite Hrest. by destruct (starts_isco (c :: s)). }
    destruct (Char.isspace c); [|done].
    simpl in Hs. apply andb_true_iff in Hs as [_ Hs].
    specialize (IH (Some c) Hs).
    destruct (match_here _ (Some c) s); [simpl; by f_equal|done].
Qed.

Lemma sub_from_skip_all p prev s : ∀ skip,
  length s ≤ skip → match_here p None [] = None ∨ 0 < skip →
  (∀ q, match_here p q [] = None) →
  sub_from p [] prev s skip = [].
Proof.
  intros skip Hlen _ Hend. revert prev skip Hlen.
  induction s as [|c s IH]; intros prev skip Hlen; simpl.
  - destruct skip; [by rewrite Hend|done].
  - destruct skip as [|k]; [simpl in Hlen; lia|]. apply IH. simpl in Hlen. lia.
Qed.

Lemma startswith_app_r k a b :
  Str.startswith k a = true → Str.startswith k (a ++ b) = true.
Proof.
  revert a. induction k as [|x k IH]; intros [|y a]; simpl; try done.
  intros [-> H]%andb_true_iff. by apply IH.
Qed.

Lemma sub_isco_tail s : ∀ prev,
  forallb dot s = true →
  (∃ q, s = sub_from isco_tail_re [] prev s 0 ++ q)
  ∧ mentions_isco (sub_from isco_tail_re [] prev s 0) = false.
Proof.
  assert (∀ q, match_here isco_tail_re q [] = None) as Hend by done.
  induction s as [|c s IH]; intros prev Hs.
  { cbn [sub_from]. rewrite Hend. split; [by exists []|done]. }
  pose proof (match_isco_tail (c :: s) prev Hs) as Hm.
  cbn [sub_from].
  destruct (match_here isco_tail_re prev (c :: s)) as [n|].
  - subst n. simpl length. rewrite app_nil_l.
    rewrite sub_from_skip_all; [|lia|by left|done].
    split; [by eexists|done].
  - simpl in Hs. apply andb_true_iff in Hs as [_ Hs].
    destruct (IH (Some c) Hs) as [[q Hq] Hno]. split.
    + exists q. simpl. by rewrite <- Hq.
    + unfold mentions_isco in *. cbn [Str.lower map Str.contains].
      fold (Str.lower (sub_from isco_tail_re [] (Some c) s 0)).
      rewrite Hno, orb_false_r. apply not_true_is_false. intros Hst.
      unfold starts_isco in Hm.
      rewrite Hq in Hm. unfold Str.lower in Hm.
      rewrite (app_comm_cons _ _ c), map_app in Hm.
      rewrite (startswith_app_r _ _ _ Hst) in Hm. done.
Qed.

End TitleCleaning.

Lemma contains_app_l k a b : Str.contains k a = true → Str.contains k (a ++ b) = true.
Proof.
  induction a as [|c a IH]; simpl.
  - rewrite orb_false_r. intros H. apply (startswith_app_r k [] b) in H.
    simpl in H. destruct b; simpl; by rewrite H.
  - intros [H|H]%orb_true_iff.
    + apply (startswith_app_r k (c :: a) b) in H. simpl in H. by rewrite H.
    + rewrite (IH H). apply orb_true_r.
Qed.

Lemma contains_app_r k a b : Str.contains k b = true → Str.contains k (a ++ b) = true.
Proof.
  intros H. induction a as [|c a IH]; [done|]. simpl. rewrite IH. apply orb_true_r.
Qed.

(** X18.  A cleaned title never mentions ISCO, in whatever letter case the line
    had it: everything from the first "ISCO" on is cut off. *)
Theorem clean_title_never_mentions_isco line :
  mentions_isco (clean_title line) = false.
Proof.
  unfold clean_title; cbv zeta.
  set (t1 := Re.sub isco_paren_re [] _).
  assert (forallb Re.dot t1 = true) as Hdot.
  { apply sub_delete_keep, title_parts_dot. }
  destruct (sub_isco_tail t1 None Hdot) as [_ Hno].
  fold (Re.sub isco_tail_re [] t1) in Hno.
  set (t2 := Re.sub isco_tail_re [] t1) in *. clearbody t2.
  apply not_true_is_false. intros Hm.
  assert (mentions_isco t2 = true); [|congruence].
  unfold mentions_isco, Str.strip_chars in *.
  destruct (lstrip_suffix (Re.set ";,. ") t2) as [p Hp].
  destruct (rstrip_prefix (Re.set ";,. ") (Str.lstrip (Re.set ";,. ") t2))
    as [q Hq].
  rewrite Hp, Hq. unfold Str.lower in *. rewrite !map_app.
  by apply contains_app_r, contains_app_l.
Qed.

(** ** Documents *)

Section DocumentFacts.

Context {page : Type} (split : page → list str * list str).

Lemma extract_pages_cover n acc pages :
  n < 5 →
  extract_pages split n acc pages = extract_pages split 5 acc (drop (5 - n) pages).
Proof.
  revert n. induction pages as [|pg pages IH]; intros n Hn.
  { by rewrite drop_nil. }
  cbn [extract_pages]. rewrite (proj2 (Nat.ltb_lt _ _) Hn).
  destruct (decide (n = 4)) as [->|]; [done|].
  rewrite IH by lia. replace (5 - n) with (S (5 - S n)) by lia. done.
Qed.

Lemma extract_pages_body n acc pages occs :
  5 ≤ n →
  extract_pages split n acc pages = Ok occs ↔
  ∃ parts,
    column_results (pg ← pages; [(split pg).1; (split pg).2]) parts
    ∧ occs = acc ++ concat parts.
Proof.
  revert n acc. induction pages as [|pg pages IH]; intros n acc Hn.
  { simpl. split.
    - intros [= <-]. exists []. split; [constructor|]. by rewrite app_nil_r.
    - intros (parts & Hp & ->). apply Forall2_nil_inv_l in Hp as ->.
      by rewrite app_nil_r. }
  cbn [extract_pages]. rewrite (proj2 (Nat.ltb_ge _ _) Hn).
  destruct (split pg) as [left_lines right_lines] eqn:Hsplit.
  unfold_result. rewrite bind_cons. rewrite Hsplit. simpl.
  unfold column_results. split.
  - destruct (extract_occupations_from_column left_lines) as [lo|] eqn:Hl;
      [|done].
    destruct (extract_occupations_from_column right_lines) as [ro|] eqn:Hr;
      [|done].
    intros (parts & Hp & ->)%IH; [|lia].
    exists (lo :: ro :: parts). split; [by repeat constructor|].
    simpl. by rewrite <- !app_assoc.
  - intros (parts & Hp & ->).
    apply Forall2_cons_inv_l in Hp as (lo & parts1 & Hl & Hp & ->).
    apply Forall2_cons_inv_l in Hp as (ro & parts2 & Hr & Hp & ->).
    rewrite Hl, Hr. apply IH; [lia|]. exists parts2. split; [done|].
    simpl. by rewrite <- !app_assoc.
Qed.

(** X19.  [extract_from_pdf] reads the pages from the fifth on, the left column
    of each page before the right one, each column on its own, and returns
    the records of all these columns one after the other; it returns
    exactly when every column does.  The first four pages play no part. *)
Theorem extract_from_pdf_columns pdf occs :
  extract_from_pdf split pdf = Ok occs ↔
  ∃ parts,
    column_results (columns_read split pdf) parts ∧ occs = concat parts.
Proof.
  unfold extract_from_pdf, columns_read.
  rewrite extract_pages_cover by lia. apply extract_pages_body. lia.
Qed.

Lemma extract_all_from_docs pdfs : ∀ acc occs,
  extract_all_from split acc pdfs = Ok occs ↔
  ∃ per_doc,
    Forall2 (fun pdf r => extract_from_pdf split pdf = Ok r) pdfs per_doc
    ∧ occs = acc ++ concat per_doc.
Proof.
  induction pdfs as [|pdf pdfs IH]; intros acc occs; simpl.
  { split.
    - intros [= <-]. exists []. split; [constructor|]. by rewrite app_nil_r.
    - intros (per_doc & Hp & ->). apply Forall2_nil_inv_l in Hp as ->.
      by rewrite app_nil_r. }
  unfold_result. split.
  - destruct (extract_from_pdf split pdf) as [r|] eqn:Hr; [|done].
    intros (per_doc & Hp & ->)%IH. exists (r :: per_doc).
    split; [by constructor|]. simpl. by rewrite <- app_assoc.
  - intros (per_doc & Hp & ->).
    apply Forall2_cons_inv_l in Hp as (r & per_doc' & Hr & Hp & ->).
    rewrite Hr. apply IH. exists per_doc'. split; [done|].
    simpl. by rewrite <- app_assoc.
Qed.

(** X20.  [extract_all] returns the records of the documents one document after
    the other, and returns exactly when every document can be read through:
    an exception in any column of any document leaves no result at all. *)
Theorem extract_all_documents pdfs occs :
  extract_all split pdfs = Ok occs ↔
  ∃ per_doc,
    Forall2 (fun pdf r => extract_from_pdf split pdf = Ok r) pdfs per_doc
    ∧ occs = concat per_doc.
Proof. apply extract_all_from_docs. Qed.

End DocumentFacts.

(** ** The validation checklist of [main] *)

Lemma column_records_ok lines occs :
  extract_occupations_from_column lines = Ok occs →
  Forall (fun o => valid o ∧ code_accepted o) occs.
Proof.
  unfold extract_occupations_from_column. unfold_result.
  destruct (run initial lines) as [st|] eqn:Hr; [|done].
  pose proof (run_valid lines initial st (Forall_nil_2 _) Hr) as Hv.
  assert (codes_accepted st) as [Hocc Hcur].
  { apply (run_codes_accepted lines initial st); [|exact Hr].
    split; [by apply Forall_nil|]. intros occ. discriminate. }
  intros [->|(occ & Hc & _ & Hvo & ->)]%finalize_open_cases.
  - apply Forall_and. done.
  - apply Forall_and. split; apply Forall_app; split; try done;
      apply Forall_singleton; [done|exact (Hcur occ Hc)].
Qed.

Section Checklist.

Context {page : Type} (split : page → list str * list str).
Variable P : Occupation → Prop.
Hypothesis column_P : ∀ lines occs,
  extract_occupations_from_column lines = Ok occs → Forall P occs.

Lemma extract_from_pdf_Forall pdf occs :
  extract_from_pdf split pdf = Ok occs → Forall P occs.
Proof.
  unfold extract_from_pdf. rewrite extract_pages_cover by lia.
  intros (parts & Hp & ->)%extract_pages_body; [|lia]. simpl.
  apply Forall_concat. clear -Hp column_P.
  induction Hp as [|lines occs cols parts Hex _ IH]; constructor; eauto.
Qed.

Lemma extract_all_from_Forall pdfs : ∀ acc occs,
  Forall P acc → extract_all_from split acc pdfs = Ok occs → Forall P occs.
Proof.
  induction pdfs as [|pdf pdfs IH]; intros acc occs Hacc; simpl.
  - by intros [= <-].
  - unfold_result.
    destruct (extract_from_pdf split pdf) as [r|] eqn:Hr; [|done].
    apply IH. apply Forall_app. split; [done|].
    exact (extract_from_pdf_Forall pdf r Hr).
Qed.

End Checklist.

Lemma deduplicate_sublist occs : deduplicate occs `sublist_of` occs.
Proof. rewrite deduplicate_keep. apply select_sublist. Qed.

Lemma all_start_with_1_9_accepted occs :
  Forall code_accepted occs → all_start_with_1_9 occs = Ok true.
Proof.
  induction 1 as [|o occs Ho _ IH]; [done|]. simpl.
  apply is_valid_nco_code_inv in Ho as (Hl & _ & Hz & _).
  destruct (nco_code o) as [|c code]; [done|]. unfold_result. simpl.
  destruct (Ascii.eqb c "0") eqn:E; [|done].
  apply Ascii.eqb_eq in E as ->. done.
Qed.

(** X21.  Whatever the documents hold, when [main] gets through extraction and
    de-duplication the three tests of its validation checklist hold: all
    codes have 4 characters, none is "2015", all start with a character
    other than "0".  Moreover the codes are pairwise distinct and every
    record passes [is_valid]. *)
Theorem main_checklist_holds {page : Type}
    (split : page → list str * list str) pdfs occs :
  main_occupations split pdfs = Ok occs →
  all_codes_4_digits occs = true
  ∧ no_year_codes occs = true
  ∧ all_start_with_1_9 occs = Ok true
  ∧ NoDup (nco_code <$> occs)
  ∧ Forall valid occs.
Proof.
  unfold main_occupations, extract_all. unfold_result.
  destruct (extract_all_from split [] pdfs) as [all|] eqn:Hall; [|done].
  intros [= <-].
  apply (extract_all_from_Forall split _ column_records_ok) in Hall;
    [|apply Forall_nil_2].
  assert (Forall (fun o => valid o ∧ code_accepted o) (deduplicate all))
    as [Hv Hc]%Forall_and.
  { rewrite Forall_forall in Hall |- *. intros o Ho. apply Hall.
    eapply elem_of_sublist; [exact Ho|apply deduplicate_sublist]. }
  split; [|split; [|split; [|split]]].
  - unfold all_codes_4_digits. apply forallb_forall. intros o Ho.
    apply list_elem_of_In in Ho. rewrite Forall_forall in Hc.
    apply Hc, is_valid_nco_code_inv in Ho as (-> & _). done.
  - unfold no_year_codes. apply negb_true_iff, not_true_is_false.
    intros Hm%mem_elem_of. apply list_elem_of_fmap in Hm as (o & Heq & Ho).
    rewrite Forall_forall in Hc.
    apply Hc, is_valid_nco_code_inv in Ho as (_ & _ & _ & Hy).
    apply Hy. rewrite <- Heq. unfold YEARS. simpl. left.
  - by apply all_start_with_1_9_accepted.
  - apply deduplicate_from_NoDup; [apply NoDup_nil_2|].
    intros c. simpl. by rewrite elem_of_nil.
  - done.
Qed.

Lemma main_checklist_holds_witness :
  all_codes_4_digits [farmer] = true
  ∧ no_year_codes [farmer] = true
  ∧ all_start_with_1_9 [farmer] = Ok true
  ∧ NoDup (nco_code <$> [farmer])
  ∧ Forall valid [farmer].
Proof.
  apply (main_checklist_holds (fun pg : list str * list str => pg)
           [ [([], []); ([], []); ([], []); ([], []); (farmer_column, []);
              ([], take 2 farmer_column)] ]).
  reflexivity.
Defined.

(** ** Which exceptions, and when *)

Lemma is_valid_raises_ValueError o e : is_valid o = Raise e → e = ValueError.
Proof.
  unfold is_valid, and_then. unfold_result.
  destruct (populated _); [|done]. destruct (populated _); [|done].
  destruct (populated _); [|done]. destruct (_ =? _) eqn:Hl; [|done].
  destruct (Str.isdigit _); [|done].
  destruct (nco_code o) as [|c code]; [done|]. simpl. unfold int_of_char.
  destruct (Char.isdecimal c); [done|]. by intros [= <-].
Qed.

Lemma finalize_raises_ValueError occs occ buf e :
  finalize occs occ buf = Raise e → e = ValueError.
Proof.
  unfold finalize. unfold_result.
  destruct (is_valid _) eqn:Hv; [done|]. intros [= <-].
  by eapply is_valid_raises_ValueError.
Qed.

Lemma finalize_open_raises_ValueError st e :
  finalize_open st = Raise e → e = ValueError.
Proof.
  unfold finalize_open. destruct (current_occ st); [|done].
  destruct (description_lines st); [done|]. apply finalize_raises_ValueError.
Qed.

Lemma step_raises_ValueError st raw e :
  step st raw = Raise e → e = ValueError.
Proof.
  unfold step; cbv zeta. unfold_result.
  destruct (negb _ || _); [done|].
  destruct (Re.matches _ _ && _); [done|].
  destruct (is_metadata_section _).
  { destruct (current_occ st); [|done].
    destruct (description_lines st); [done|].
    destruct (finalize _ _ _) eqn:Hf; [done|]. intros [= <-].
    by eapply finalize_raises_ValueError. }
  destruct (in_metadata st && _); [done|].
  destruct (is_header_line _); [done|].
  destruct (is_valid_nco_code _).
  { destruct (finalize_open st) eqn:Hf.
    - by destruct (negb (Str.truthy (clean_title _)) || _).
    - intros [= <-]. by eapply finalize_open_raises_ValueError. }
  destruct (current_occ st); [|done].
  destruct (should_stop_description _).
  { destruct (description_lines st); [done|].
    destruct (finalize _ _ _) eqn:Hf; [done|]. intros [= <-].
    by eapply finalize_raises_ValueError. }
  by destruct (negb _ && _).
Qed.

Lemma run_raises_ValueError lines : ∀ st e,
  run st lines = Raise e → e = ValueError.
Proof.
  induction lines as [|raw lines IH]; intros st e; simpl; [done|].
  unfold_result. destruct (step st raw) eqn:Hs; [apply IH|].
  intros [= <-]. by eapply step_raises_ValueError.
Qed.

Lemma column_returns lines :
  Forall (fun l => digits_decimal l = true) lines →
  ∃ occs, extract_occupations_from_column lines = Ok occs.
Proof.
  intros Hall. unfold extract_occupations_from_column. unfold_result.
  destruct (run_returns lines initial) as (st & -> & Hst); [|done|].
  { intros ?; discriminate. }
  by apply finalize_open_returns.
Qed.

(** X22.  The only exception the column extractor can raise is [ValueError],
    and it raises it only when some line of the column holds a character
    that [str.isdigit] accepts and that is not a decimal digit. *)
Theorem extract_raises_only_on_nondecimal_digit lines e :
  extract_occupations_from_column lines = Raise e →
  e = ValueError
  ∧ ∃ raw c, raw ∈ lines ∧ c ∈ raw
      ∧ Char.isdigit c = true ∧ Char.isdecimal c = false.
Proof.
  intros Hr. split.
  - unfold extract_occupations_from_column in Hr. unfold_result.
    destruct (run initial lines) eqn:Hrun.
    + by eapply finalize_open_raises_ValueError.
    + injection Hr as <-. by eapply run_raises_ValueError.
  - destruct (decide (Forall (fun l => digits_decimal l = true) lines))
      as [Hall|Hex].
    + destruct (column_returns lines Hall) as [occs Hok]. congruence.
    + apply not_Forall_Exists in Hex; [|apply _].
      apply Exists_exists in Hex as (raw & Hin & Hraw).
      apply not_true_is_false in Hraw. unfold digits_decimal in Hraw.
      assert (∃ c, c ∈ raw ∧ Char.isdigit c = true
                   ∧ Char.isdecimal c = false) as (c & Hc & Hd & Hn).
      { clear -Hraw. induction raw as [|c raw IH]; [done|].
        simpl in Hraw. apply andb_false_iff in Hraw as [Hc|Hrest].
        - exists c. apply orb_false_iff in Hc as [Hd%negb_false_iff Hn].
          split; [left|done].
        - destruct (IH Hrest) as (c' & Hc' & Hd & Hn). exists c'.
          split; [by right|done]. }
      by exists raw, c.
Qed.

Lemma extract_raises_only_on_nondecimal_digit_witness :
  ValueError = ValueError
  ∧ ∃ raw c,
      raw ∈ [ superscript_two :: lit "111 Farmer";
              lit "Grows crops on farmland using traditional methods." ]
      ∧ c ∈ raw ∧ Char.isdigit c = true ∧ Char.isdecimal c = false.
Proof.
  apply (extract_raises_only_on_nondecimal_digit
           [ superscript_two :: lit "111 Farmer";
             lit "Grows crops on farmland using traditional methods." ]).
  reflexivity.
Defined.

(** ** Documents whose digits are all decimal *)

Section ExtractAllReturns.

Context {page : Type} (split : page → list str * list str).

Lemma extract_pages_returns pages : ∀ n acc,
  Forall (fun lines => Forall (fun l => digits_decimal l = true) lines)
    (pg ← pages; [(split pg).1; (split pg).2]) →
  ∃ occs, extract_pages split n acc pages = Ok occs.
Proof.
  induction pages as [|pg pages IH]; intros n acc Hall; simpl; [by eexists|].
  rewrite bind_cons in Hall. simpl in Hall.
  apply Forall_cons in Hall as [Hl Hall].
  apply Forall_cons in Hall as [Hr Hall].
  destruct (n <? 5); [by apply IH|].
  destruct (split pg) as [l r]. simpl in *. unfold_result.
  destruct (column_returns l Hl) as [lo ->].
  destruct (column_returns r Hr) as [ro ->]. by apply IH.
Qed.

Lemma extract_from_pdf_returns pdf :
  Forall (fun lines => Forall (fun l => digits_decimal l = true) lines)
    (columns_read split pdf) →
  ∃ occs, extract_from_pdf split pdf = Ok occs.
Proof.
  intros Hall. unfold extract_from_pdf.
  rewrite extract_pages_cover by lia. by apply extract_pages_returns.
Qed.

(** X23.  With the documents opened and their pages split into columns, both
    taken as given, if in every line of every column read each character
    that [str.isdigit] accepts is a decimal digit, as in ASCII text, then
    the extraction of [extract_all] raises in no column and gives a list of
    records. *)
Theorem extract_all_returns_on_decimal_digits pdfs :
  decimal_documents split pdfs → ∃ occs, extract_all split pdfs = Ok occs.
Proof.
  intros Hall. unfold extract_all.
  assert (∀ acc, ∃ occs, extract_all_from split acc pdfs = Ok occs) as Hret.
  { induction Hall as [|pdf pdfs Hpdf _ IH]; intros acc; simpl; [by eexists|].
    unfold_result. destruct (extract_from_pdf_returns pdf Hpdf) as [r ->].
    apply IH. }
  apply Hret.
Qed.

End ExtractAllReturns.

Lemma extract_all_returns_on_decimal_digits_witness :
  ∃ occs,
    extract_all (fun pg : list str * list str => pg)
      [ [([], []); ([], []); ([], []); ([], []); (farmer_column, [])] ]
    = Ok occs.
Proof.
  apply extract_all_returns_on_decimal_digits. repeat constructor.
Defined.
